(** * pr_review_tool: the change reconciler and the per-language analyzers

    A shallow embedding of [pr_review_tool.py].

    Conventions of the embedding.
    - A Python [str] is the Rocq [string] that holds its UTF-8 encoding, so
      the literals of the source (emoji labels included) are written as they
      are.  The tables of line boundaries and of white space used by
      [str.splitlines] and [str.strip] are given on that encoding.
    - A Python [int] is a [Z]; a [dict] used as a map is a [gmap], a [set] a
      [gset].
    - The list [findings] is only ever appended to; an analyzer is the list
      it returns, a visitor method the list of the appends it comes to, each
      one the finding or the exception raised while the finding is built.
    - Code that may raise returns a [result]; an exception is represented by
      its message [str(e)], the only thing the handlers of the source use.
    - What the program obtains from outside (the host's answer for a commit,
      Python's parser, the regular expression engine, the content of a file,
      the outcome of a subprocess, the JSON decoder) is a [Variable] of the
      section that embeds the code using it.
    - The limit of the interpreter on the digits of an [int] turned into a
      [str] is the default one, 4300, which the program never changes.
    - Where the interpreter raises [RecursionError] depends on its recursion
      limit and on the frames in use when the analyzer is called.
      [analyze_python_code_ast] is the analyzer in a run that does not reach
      that limit; [analyze_python_code_ast_limited] takes the point at which
      the limit is reached from outside. *)

From stdpp Require Import gmap strings list fin_maps pretty.
From Stdlib Require Import Ascii ZArith Lia.

Local Open Scope Z_scope.
Set Warnings "-clear-no-such-hyp,-register-all".

(** ** Results of code that may raise *)

Inductive result (A : Type) : Type :=
| Ok (a : A)
| Raise (e : string).
Arguments Ok {A} a.
Arguments Raise {A} e.

#[global] Instance result_eq_dec {A} `{EqDecision A} : EqDecision (result A).
Proof. solve_decision. Defined.

(** ** Python's string operations *)

Module Str.

Definition byte (n : nat) : ascii := ascii_of_nat n.

(** [s.startswith(prefix)] *)
Fixpoint startswith (prefix s : string) : bool :=
  match prefix, s with
  | EmptyString, _ => true
  | String a p, String b r => Ascii.eqb a b && startswith p r
  | String _ _, EmptyString => false
  end.

(** [s.endswith(suffix)] *)
Definition endswith (suffix s : string) : bool :=
  startswith (String.rev suffix) (String.rev s).

(** [s.endswith((x1, ..., xn))], a tuple of suffixes *)
Definition endswith_any (suffixes : list string) (s : string) : bool :=
  existsb (fun suffix => endswith suffix s) suffixes.

(** [sub in s] *)
Fixpoint contains (sub s : string) : bool :=
  startswith sub s ||
  match s with
  | EmptyString => false
  | String _ r => contains sub r
  end.

(** [s[1:]]; the source takes it only of a line that starts with the
    one-byte characters [+] or [-]. *)
Definition drop1 (s : string) : string :=
  match s with
  | EmptyString => EmptyString
  | String _ r => r
  end.

Definition code (a : ascii) : nat := nat_of_ascii a.

(** The line boundaries of [str.splitlines]: LF, VT, FF, CR, FS, GS, RS,
    then CR LF, U+0085 (C2 85), U+2028 and U+2029 (E2 80 A8, E2 80 A9).
    [linebreak] gives the number of bytes of the boundary that starts [s],
    0 when there is none. *)
Definition linebreak (s : string) : nat :=
  match s with
  | EmptyString => 0
  | String a r =>
      let a := code a in
      if (a =? 13)%nat then
        match r with
        | String b _ => if (code b =? 10)%nat then 2 else 1
        | EmptyString => 1
        end
      else if ((10 <=? a) && (a <=? 12) || (28 <=? a) && (a <=? 30))%nat then 1
      else
        match r with
        | String b r2 =>
            let b := code b in
            if ((a =? 194) && (b =? 133))%nat then 2
            else
              match r2 with
              | String c _ =>
                  let c := code c in
                  if ((a =? 226) && (b =? 128) && ((c =? 168) || (c =? 169)))%nat
                  then 3 else 0
              | EmptyString => 0
              end
        | EmptyString => 0
        end
  end%nat.

(** [splitlines_from s skip cur]: [cur] is the line read so far, [skip] the
    bytes of a boundary still to pass over.  A last line is produced only
    when it is not empty, as Python does. *)
Fixpoint splitlines_from (s : string) (skip : nat) (cur : string) : list string :=
  match s with
  | EmptyString => if decide (cur = EmptyString) then [] else [cur]
  | String a r =>
      match skip with
      | S k => splitlines_from r k cur
      | O =>
          match linebreak s with
          | O => splitlines_from r 0 (cur +:+ String a EmptyString)
          | S k => cur :: splitlines_from r k EmptyString
          end
      end
  end.

(** [s.splitlines()] *)
Definition splitlines (s : string) : list string :=
  splitlines_from s 0 EmptyString.

(** White space as [str.strip()] removes it (the characters with
    [str.isspace]): U+0009..U+000D, U+001C..U+0020 in one byte; U+0085 and
    U+00A0 in two; U+1680, U+2000..U+200A, U+2028, U+2029, U+202F, U+205F
    and U+3000 in three. *)
Definition space1 (a : ascii) : bool :=
  let a := code a in ((9 <=? a) && (a <=? 13) || (28 <=? a) && (a <=? 32))%nat.

Definition space2 (a b : ascii) : bool :=
  let a := code a in let b := code b in
  ((a =? 194) && ((b =? 133) || (b =? 160)))%nat.

Definition space3 (a b c : ascii) : bool :=
  let a := code a in let b := code b in let c := code c in
  ((a =? 225) && (b =? 154) && (c =? 128)
   || (a =? 226) && (b =? 128)
      && ((128 <=? c) && (c <=? 138) || (c =? 168) || (c =? 169) || (c =? 175))
   || (a =? 226) && (b =? 129) && (c =? 159)
   || (a =? 227) && (b =? 128) && (c =? 128))%nat.

(** Removes the white space a string starts with; [p2] and [p3] recognise
    the characters of two and three bytes in the order the bytes are
    met. *)
Fixpoint lstrip_by (p2 : ascii -> ascii -> bool)
    (p3 : ascii -> ascii -> ascii -> bool) (s : string) : string :=
  match s with
  | EmptyString => s
  | String a r =>
      if space1 a then lstrip_by p2 p3 r
      else
        match r with
        | EmptyString => s
        | String b r2 =>
            if p2 a b then lstrip_by p2 p3 r2
            else
              match r2 with
              | EmptyString => s
              | String c r3 => if p3 a b c then lstrip_by p2 p3 r3 else s
              end
        end
  end.

Definition lstrip (s : string) : string := lstrip_by space2 space3 s.

(** The end of the string is read backwards, the bytes of a character
    then come last byte first. *)
Definition rstrip (s : string) : string :=
  String.rev
    (lstrip_by (fun a b => space2 b a) (fun a b c => space3 c b a) (String.rev s)).

(** [s.strip()] *)
Definition strip (s : string) : string := rstrip (lstrip s).

Definition LF : string := String (byte 10) EmptyString.

End Str.

(** ** The change reconciler: [track_add_delete_lines] *)

(** A file record of the host's answer: [file["filename"]] and the optional
    [file["patch"]]. *)
Record file : Type := File { filename : string; patch : option string }.

(** A commit record, [commit["sha"]]. *)
Record commit : Type := Commit { sha : string }.

#[global] Instance file_eq_dec : EqDecision file.
Proof. solve_decision. Defined.
#[global] Instance commit_eq_dec : EqDecision commit.
Proof. solve_decision. Defined.

(** [d.get(key, set())] *)
Definition get_set (d : gmap string (gset string)) (key : string) : gset string :=
  default ∅ (d !! key).

(** [d.setdefault(key, set()).add(x)] *)
Definition setdefault_add (key x : string) (d : gmap string (gset string))
  : gmap string (gset string) :=
  <[key := {[x]} ∪ get_set d key]> d.

(** The two dictionaries of the function, [added_lines] and
    [removed_lines]. *)
Record line_sets : Type := LineSets {
  added_lines : gmap string (gset string);
  removed_lines : gmap string (gset string)
}.

Definition no_lines : line_sets := LineSets ∅ ∅.

(** The body of [for line in patch.splitlines()]. *)
Definition scan_line (filename : string) (st : line_sets) (line : string)
  : line_sets :=
  if Str.startswith "+" line && negb (Str.startswith "+++" line) then
    LineSets (setdefault_add filename (Str.strip (Str.drop1 line)) (added_lines st))
             (removed_lines st)
  else if Str.startswith "-" line && negb (Str.startswith "---" line) then
    LineSets (added_lines st)
             (setdefault_add filename (Str.strip (Str.drop1 line)) (removed_lines st))
  else st.

(** The body of [for file in files]: [patch = file.get("patch", "")], and
    [continue] when [not patch]. *)
Definition scan_file (st : line_sets) (f : file) : line_sets :=
  let patch := default "" (patch f) in
  if decide (patch = "") then st
  else fold_left (scan_line (filename f)) (Str.splitlines patch) st.

(** The last loop: [deleted = added_lines[file] & removed_lines.get(file,
    set())], kept [if deleted]. *)
Definition deleted_lines (st : line_sets) : gmap string (gset string) :=
  map_imap
    (fun file added =>
       let deleted := added ∩ get_set (removed_lines st) file in
       if decide (deleted = ∅) then None else Some deleted)
    (added_lines st).

Section Reconciler.

(** [fetch_commit_diff]: the files of a commit as the host answers, or the
    error [raise_for_status] raises. *)
Variable fetch_commit_diff : string -> result (list file).

(** The loop [for commit in commits]; an error of [fetch_commit_diff]
    leaves the function. *)
Fixpoint scan_commits (commits : list commit) (st : line_sets)
  : result line_sets :=
  match commits with
  | [] => Ok st
  | commit :: rest =>
      match fetch_commit_diff (sha commit) with
      | Raise e => Raise e
      | Ok files => scan_commits rest (fold_left scan_file files st)
      end
  end.

Definition track_add_delete_lines (commits : list commit)
  : result (gmap string (gset string)) :=
  match scan_commits commits no_lines with
  | Raise e => Raise e
  | Ok st => Ok (deleted_lines st)
  end.

End Reconciler.

(** What the claims call the Added and the Removed set of a patch body: the
    sets the extraction step builds for the file from nothing. *)
Definition Added (patch : option string) : gset string :=
  get_set (added_lines (scan_file no_lines (File "f" patch))) "f".

Definition Removed (patch : option string) : gset string :=
  get_set (removed_lines (scan_file no_lines (File "f" patch))) "f".

(** The unions of the claims, accumulated over the files of a change
    request: every patch of the file named [name] gives its own set. *)
Definition Added_union (files : list file) (name : string) : gset string :=
  ⋃ ((fun f => if decide (filename f = name) then Added (patch f) else ∅) <$> files).

Definition Removed_union (files : list file) (name : string) : gset string :=
  ⋃ ((fun f => if decide (filename f = name) then Removed (patch f) else ∅) <$> files).

(** The files of a change request, those of its commits one after the
    other. *)
Definition changed_files (fetch : string -> result (list file))
    (commits : list commit) : list file :=
  flat_map (fun c => match fetch (sha c) with Ok files => files | Raise _ => [] end)
           commits.

(** The lines the extraction step counts: [+] lines that are not [+++]
    headers, [-] lines that are not [---] headers. *)
Definition plus_line (line : string) : Prop :=
  Str.startswith "+" line = true ∧ Str.startswith "+++" line = false.

Definition minus_line (line : string) : Prop :=
  Str.startswith "-" line = true ∧ Str.startswith "---" line = false.

(** A line of the patch of [f] that satisfies [P] contributes [x]: its text
    after the marker, trimmed. *)
Definition contributes (P : string → Prop) (f : file) (x : string) : Prop :=
  ∃ p line, patch f = Some p ∧ line ∈ Str.splitlines p ∧ P line
            ∧ x = Str.strip (Str.drop1 line).

(** The host answers for the commit. *)
Definition fetched (fetch : string → result (list file)) (c : commit) : Prop :=
  ∃ files, fetch (sha c) = Ok files.

(** The cancelled set of a file name: the intersection of its two unions. *)
Definition cancelled (fetch : string → result (list file))
    (commits : list commit) (name : string) : gset string :=
  Added_union (changed_files fetch commits) name
  ∩ Removed_union (changed_files fetch commits) name.

Definition patch_x : string := "+x = 1" +:+ Str.LF +:+ "-x = 1" +:+ Str.LF.

(** ** Findings and the [try] blocks of the analyzers *)

(** A finding of an analyzer: [(lineno, code, reason)]. *)
Definition finding : Type := Z * string * string.

(** The run of a [try] block over the list [findings]: the findings it
    appended, then its value or the exception that ended it. *)
Definition attempt (F A : Type) : Type := list F * result A.

#[global] Instance attempt_ret {F} : MRet (attempt F) := fun A x => ([], Ok x).

#[global] Instance attempt_bind {F} : MBind (attempt F) := fun A B f m =>
  match m with
  | (fs, Ok a) => let '(fs', r) := f a in (fs ++ fs', r)
  | (fs, Raise e) => (fs, Raise e)
  end.

(** A call that may raise. *)
Definition call {F A} (r : result A) : attempt F A := ([], r).

(** [findings.append(f)] *)
Definition append {F} (f : F) : attempt F unit := ([f], Ok tt).

(** [for x in xs: body x] *)
Fixpoint for_each {F A} (xs : list A) (body : A → attempt F unit) : attempt F unit :=
  match xs with
  | [] => mret tt
  | x :: rest => body x ;; for_each rest body
  end.

(** An append the code comes to: the finding, or the exception raised while
    the finding is built. *)
Definition step (F : Type) : Type := result F.

(** The appends of [steps] in order, up to the first that raises. *)
Fixpoint run {F} (steps : list (step F)) : attempt F unit :=
  match steps with
  | [] => mret tt
  | Ok f :: rest => append f ;; run rest
  | Raise e :: _ => call (Raise e)
  end.

(** The findings of [steps], and the exceptions of [steps]. *)
Definition oks {F} (steps : list (step F)) : list F :=
  flat_map (fun s => match s with Ok f => [f] | Raise _ => [] end) steps.

Definition raises {F} (steps : list (step F)) : list string :=
  flat_map (fun s => match s with Ok _ => [] | Raise e => [e] end) steps.

(** A block that the interpreter may end with [RecursionError].  Which call
    of the block reaches the recursion limit depends on
    [sys.getrecursionlimit()] and on the frames in use when the block is
    entered, so it is taken from outside: with [Some (k, e)] the error of
    message [e] is raised once [k] findings are appended, if the block gets
    that far; with [None] the limit is not reached. *)
Definition interrupted {F} (recursion_error : option (nat * string))
    (block : attempt F unit) : attempt F unit :=
  match recursion_error with
  | Some (k, e) =>
      if decide (k ≤ length block.1)%nat then (take k block.1, Raise e)
      else block
  | None => block
  end.

(** [try: block except Exception as e: findings.append(handler e)], then
    [return findings]. *)
Definition try_except {F} (block : attempt F unit) (handler : string → F) : list F :=
  match block with
  | (fs, Ok _) => fs
  | (fs, Raise e) => fs ++ [handler e]
  end.

(** ** The syntax tree of Python's [ast] module *)

(** The value of an [ast.Constant].  A float, a complex number and a bytes
    literal are represented by the text [str()] gives for them. *)
Inductive constant : Type :=
| CNone
| CBool (b : bool)
| CInt (n : Z)
| CFloat (repr : string)
| CComplex (repr : string)
| CStr (s : string)
| CBytes (repr : string)
| CEllipsis.

(** [isinstance(value, (int, float))]; [bool] is a subclass of [int]. *)
Definition isinstance_int_float (value : constant) : bool :=
  match value with
  | CBool _ | CInt _ | CFloat _ => true
  | _ => false
  end.

(** The text [str(value)] gives when it returns. *)
Definition str_value (value : constant) : string :=
  match value with
  | CNone => "None"
  | CBool true => "True"
  | CBool false => "False"
  | CInt n => pretty n
  | CFloat repr | CComplex repr | CBytes repr => repr
  | CStr s => s
  | CEllipsis => "Ellipsis"
  end.

(** The least absolute value of an [int] that [str] refuses: [10 ^ 4300],
    the first number of more than [sys.int_info.default_max_str_digits]
    digits. *)
Definition INT_MAX_STR : Z := Eval vm_compute in 10 ^ 4300.

(** The message of the [ValueError] of [str] on such an [int]. *)
Definition INT_MAX_STR_ERROR : string :=
  "Exceeds the limit (4300 digits) for integer string conversion; use sys.set_int_max_str_digits() to increase the limit".

(** [str(value)]: it raises [ValueError] on an [int] of more than 4300
    digits, and on nothing else ([bool] has its own [__repr__]). *)
Definition str_of (value : constant) : result string :=
  match value with
  | CInt n =>
      if INT_MAX_STR <=? Z.abs n then Raise INT_MAX_STR_ERROR
      else Ok (str_value value)
  | _ => Ok (str_value value)
  end.

(** Expressions.  The visitor has a method for [Call] and [Constant] and
    looks at [Name] and [Attribute] in [get_full_name]; every other class
    ([BinOp], [BoolOp], [Compare], [Lambda], [IfExp], [Dict], [List],
    [Subscript], [JoinedStr], the comprehensions, ...) is walked by
    [generic_visit] and is an [OtherExpr] holding its child expressions in
    the order [generic_visit] reaches them.  [keywords] holds the values of
    the [keyword] nodes of a call. *)
Inductive expr : Type :=
| Name (id : string)
| Attribute (value : expr) (attr : string)
| Call (lineno : Z) (func : expr) (args : list expr) (keywords : list expr)
| Constant (lineno : Z) (value : constant)
| OtherExpr (children : list expr).

(** Statements, with the fields of the [ast] classes in the order of
    [_fields].  [args] holds the expressions of the [arguments] node
    (annotations and defaults), [items] those of the [withitem] nodes, [type]
    and [pattern] those of an exception handler and of a case, in the order
    they are reached.  [AsyncFor], [AsyncWith] and [TryStar] have the fields
    of [For], [With] and [Try] and are treated like them by every method.  A
    statement of a class without statements inside ([Assign], [Return],
    [Pass], [Raise], [Import], ...) is a [SimpleStmt] holding its child
    expressions. *)
Inductive stmt : Type :=
| FunctionDef (lineno : Z) (name : string) (args : list expr) (body : list stmt)
    (decorator_list : list expr) (returns : option expr)
| AsyncFunctionDef (lineno : Z) (name : string) (args : list expr)
    (body : list stmt) (decorator_list : list expr) (returns : option expr)
| ClassDef (name : string) (bases keywords : list expr) (body : list stmt)
    (decorator_list : list expr)
| For (target iter : expr) (body orelse : list stmt)
| While (test : expr) (body orelse : list stmt)
| If (test : expr) (body orelse : list stmt)
| With (items : list expr) (body : list stmt)
| Try (body : list stmt) (handlers : list excepthandler)
    (orelse finalbody : list stmt)
| Match (subject : expr) (cases : list match_case)
| Expr (value : expr)
| SimpleStmt (children : list expr)
with excepthandler : Type :=
| ExceptHandler (type : list expr) (body : list stmt)
with match_case : Type :=
| MatchCase (pattern : list expr) (body : list stmt).

(** The tree [ast.parse] returns. *)
Inductive module : Type :=
| Module (body : list stmt).

(** ** The structural analyzer: [analyze_python_code_ast] *)

Module Analyzer.

Definition DEBUG_CALL : string := "🐍 Python debug function call".
Definition MAGIC_NUMBER : string := "🔢 Use of magic number".
Definition TOO_LONG : string := "📏 Function is too long".
Definition TOO_DEEP : string := "🌀 Nesting too deep".

(** [get_full_name] *)
Fixpoint get_full_name (node : expr) : string :=
  match node with
  | Name id => id
  | Attribute value attr => get_full_name value +:+ "." +:+ attr
  | _ => ""
  end.

(** [visit] on an expression, as the appends it comes to: [visit_Call],
    [visit_Constant], where [str(node.value)] may raise, and [generic_visit]
    for the other classes. *)
Fixpoint visit_expr (node : expr) : list (step finding) :=
  match node with
  | Call lineno func args keywords =>
      let func_name := get_full_name func in
      (if bool_decide (func_name ∈ ["print"; "pdb.set_trace"; "logging.debug"])
       then [Ok (lineno, func_name, DEBUG_CALL)] else [])
      ++ visit_expr func ++ flat_map visit_expr args
      ++ flat_map visit_expr keywords
  | Constant lineno value =>
      if isinstance_int_float value
      then [match str_of value with
            | Ok code => Ok (lineno, code, MAGIC_NUMBER)
            | Raise e => Raise e
            end]
      else []
  | Name _ => []
  | Attribute value _ => visit_expr value
  | OtherExpr children => flat_map visit_expr children
  end.

(** The body of the loop of [nesting_depth(body, level)], which gives the
    new [max_depth]: only a statement with an attribute [body] is looked
    into, and only its [body], by [nesting_depth(stmt.body, level + 1)]. *)
Fixpoint nesting_depth_step (level max_depth : Z) (stmt : stmt) {struct stmt} : Z :=
  match stmt with
  | FunctionDef _ _ _ body _ _ | AsyncFunctionDef _ _ _ body _ _
  | ClassDef _ _ _ body _ | For _ _ body _ | While _ body _
  | If _ body _ | With _ body | Try body _ _ _ =>
      let depth := fold_left (nesting_depth_step (level + 1)) body (level + 1) in
      Z.max max_depth depth
  | Match _ _ | Expr _ | SimpleStmt _ => max_depth
  end.

(** [nesting_depth]: [max_depth = level], then the loop over [body]. *)
Definition nesting_depth (body : list stmt) (level : Z) : Z :=
  fold_left (nesting_depth_step level) body level.

Definition visit_option (node : option expr) : list (step finding) :=
  match node with
  | Some e => visit_expr e
  | None => []
  end.

(** The two tests of [visit_FunctionDef], on [len(node.body)] and on
    [self.nesting_depth(node.body)]. *)
Definition function_checks (lineno : Z) (name : string) (body : list stmt)
  : list finding :=
  (if 50 <? Z.of_nat (length body) then [(lineno, name, TOO_LONG)] else [])
  ++ (if 4 <? nesting_depth body 1 then [(lineno, name, TOO_DEEP)] else []).

(** [visit] on a statement: [visit_FunctionDef], which goes on with
    [generic_visit], and [generic_visit] for the other classes.  There is
    no [visit_AsyncFunctionDef]. *)
Fixpoint visit_stmt (node : stmt) : list (step finding) :=
  match node with
  | FunctionDef lineno name args body decorator_list returns =>
      (Ok <$> function_checks lineno name body)
      ++ flat_map visit_expr args ++ flat_map visit_stmt body
      ++ flat_map visit_expr decorator_list ++ visit_option returns
  | AsyncFunctionDef _ _ args body decorator_list returns =>
      flat_map visit_expr args ++ flat_map visit_stmt body
      ++ flat_map visit_expr decorator_list ++ visit_option returns
  | ClassDef _ bases keywords body decorator_list =>
      flat_map visit_expr bases ++ flat_map visit_expr keywords
      ++ flat_map visit_stmt body ++ flat_map visit_expr decorator_list
  | For target iter body orelse =>
      visit_expr target ++ visit_expr iter
      ++ flat_map visit_stmt body ++ flat_map visit_stmt orelse
  | While test body orelse | If test body orelse =>
      visit_expr test ++ flat_map visit_stmt body ++ flat_map visit_stmt orelse
  | With items body =>
      flat_map visit_expr items ++ flat_map visit_stmt body
  | Try body handlers orelse finalbody =>
      flat_map visit_stmt body ++ flat_map visit_handler handlers
      ++ flat_map visit_stmt orelse ++ flat_map visit_stmt finalbody
  | Match subject cases =>
      visit_expr subject ++ flat_map visit_case cases
  | Expr value => visit_expr value
  | SimpleStmt children => flat_map visit_expr children
  end
with visit_handler (node : excepthandler) : list (step finding) :=
  match node with
  | ExceptHandler type body =>
      flat_map visit_expr type ++ flat_map visit_stmt body
  end
with visit_case (node : match_case) : list (step finding) :=
  match node with
  | MatchCase pattern body =>
      flat_map visit_expr pattern ++ flat_map visit_stmt body
  end.

(** [visit] on the module. *)
Definition visit (tree : module) : list (step finding) :=
  match tree with
  | Module body => flat_map visit_stmt body
  end.

(** [Analyzer().visit(tree)], which the interpreter may end with
    [RecursionError]. *)
Definition walk (recursion_error : option (nat * string)) (tree : module)
  : attempt finding unit :=
  interrupted recursion_error (run (visit tree)).

End Analyzer.

Section Structural.

(** [ast.parse(source_code, filename=filename)]: the tree, or the
    exception. *)
Variable ast_parse : string → string → result module.

(** The parse and the walk are in one [try]: an exception of either ends
    the block, and the handler appends its finding after those the walk had
    appended. *)
Definition analyze_python_code_ast_limited
    (recursion_error : option (nat * string)) (source_code filename : string)
  : list finding :=
  try_except
    (tree ← call (ast_parse source_code filename);
     Analyzer.walk recursion_error tree)
    (fun e => (0, "AST parsing failed: " +:+ e, "⚠️")).

Definition analyze_python_code_ast (source_code filename : string)
  : list finding :=
  try_except
    (tree ← call (ast_parse source_code filename);
     run (Analyzer.visit tree))
    (fun e => (0, "AST parsing failed: " +:+ e, "⚠️")).

End Structural.

(** ** The heuristic analyzer: [analyze_text_file_lines] *)

(** A check, [{"pattern": ..., "message": ...}]. *)
Record check : Type := MkCheck { pattern : string; message : string }.

(** [enumerate(xs, start)] *)
Fixpoint enumerate {A} (start : Z) (xs : list A) : list (Z * A) :=
  match xs with
  | [] => []
  | x :: rest => (start, x) :: enumerate (start + 1) rest
  end.

Section Heuristic.

(** [open(file_path, 'r')] followed by [f.readlines()]: the lines of the
    file, or the exception. *)
Variable readlines : string → result (list string).

(** [re.search(pattern, line)] as a truth value, or the exception
    ([re.error] for a pattern the engine rejects). *)
Variable re_search : string → string → result bool.

Definition analyze_text_file_lines (file_path : string) (checks : list check)
  : list finding :=
  try_except
    (lines ← call (readlines file_path);
     for_each (enumerate 1 lines) (fun '(i, line) =>
       for_each checks (fun check =>
         found ← call (re_search (pattern check) line);
         if found : bool
         then append (i, Str.strip line, message check)
         else mret tt)))
    (fun e => (0, e, "⚠️ File reading error")).

End Heuristic.

(** The pairs of a numbered line and a check whose pattern matches it, by
    line, and for one line in the order of the checks. *)
Definition matching_pairs (re_search : string → string → result bool)
    (lines : list string) (checks : list check) : list (Z * string * check) :=
  filter (fun p => re_search (pattern p.2) p.1.2 = Ok true)
         (list_prod (enumerate 1 lines) checks).

Definition pair_finding (p : Z * string * check) : finding :=
  (p.1.1, Str.strip p.1.2, message p.2).

(** ** The analyzers that run an external tool *)

(** What [subprocess.run] returns. *)
Record completed : Type := Completed {
  returncode : Z;
  stdout : string;
  stderr : string
}.

(** A decoded JSON document; a float is represented by its text, an object
    by its members, each key once. *)
Inductive json : Type :=
| JNull
| JBool (b : bool)
| JInt (n : Z)
| JFloat (repr : string)
| JStr (s : string)
| JList (items : list json)
| JDict (members : list (string * json)).

(** A finding built from a decoded document:
    [(item["line"], item["content"], item["reason"])]. *)
Definition json_finding : Type := json * json * json.

Module Path.

(** [p[:p.rfind('/') + 1]], on the reversed path. *)
Fixpoint head_rev (r : string) : string :=
  match r with
  | EmptyString => EmptyString
  | String a rest => if Ascii.eqb a "/" then r else head_rev rest
  end.

Fixpoint all_slashes (s : string) : bool :=
  match s with
  | EmptyString => true
  | String a rest => Ascii.eqb a "/" && all_slashes rest
  end.

(** [head.rstrip('/')], on the reversed head. *)
Fixpoint lstrip_slashes (r : string) : string :=
  match r with
  | EmptyString => EmptyString
  | String a rest => if Ascii.eqb a "/" then lstrip_slashes rest else r
  end.

(** [os.path.dirname] of [posixpath]. *)
Definition dirname (p : string) : string :=
  let head_r := head_rev (String.rev p) in
  if all_slashes head_r then String.rev head_r
  else String.rev (lstrip_slashes head_r).

End Path.

Module Json.

(** The characters of a string, each with its continuation bytes. *)
Fixpoint characters_from (s cur : string) : list string :=
  match s with
  | EmptyString => if decide (cur = "") then [] else [cur]
  | String a rest =>
      if ((128 <=? Str.code a) && (Str.code a <? 192))%nat
      then characters_from rest (cur +:+ String a EmptyString)
      else (if decide (cur = "") then [] else [cur])
           ++ characters_from rest (String a EmptyString)
  end.

Definition characters (s : string) : list string := characters_from s "".

(** [d[key]] on the members of an object. *)
Fixpoint member (key : string) (members : list (string * json)) : option json :=
  match members with
  | [] => None
  | (k, v) :: rest => if decide (k = key) then Some v else member key rest
  end.

End Json.

Section External.

(** [subprocess.run(argv, cwd=cwd, capture_output=True, ...)]: the
    completed process, or the exception raised when the binary cannot be
    run or its output cannot be decoded. *)
Variable run : list string → option string → result completed.

(** [json.loads] *)
Variable json_loads : string → result json.

(** The message of the [TypeError] raised by iterating over a value that
    is not iterable, and by [item[key]] on a value that is not an
    object. *)
Variable not_iterable : json → string.
Variable bad_subscript : json → string → string.

(** [for item in results]: the items of a list, the keys of an object, the
    characters of a string. *)
Definition iterate (results : json) : result (list json) :=
  match results with
  | JList items => Ok items
  | JDict members => Ok (JStr <$> members.*1)
  | JStr s => Ok (JStr <$> Json.characters s)
  | JNull | JBool _ | JInt _ | JFloat _ => Raise (not_iterable results)
  end.

(** [item[key]]; the message of a [KeyError] is the key in quotes. *)
Definition getitem (item : json) (key : string) : result json :=
  match item with
  | JDict members =>
      match Json.member key members with
      | Some v => Ok v
      | None => Raise ("'" +:+ key +:+ "'")
      end
  | _ => Raise (bad_subscript item key)
  end.

Definition analyze_ts_code (file_path : string) : list json_finding :=
  try_except
    (result ← call (run ["node"; "analyze_ts_ast.js"; file_path] None);
     if decide (stdout result = "") then mret tt
     else
       results ← call (json_loads (stdout result));
       items ← call (iterate results);
       for_each items (fun item =>
         line ← call (getitem item "line");
         content ← call (getitem item "content");
         reason ← call (getitem item "reason");
         append (line, content, reason)))
    (fun e => (JInt 0, JStr e, JStr "⚠️ TypeScript parsing failed")).

Definition analyze_terraform (file_path : string) : list finding :=
  try_except
    (fmt_result ← call (run ["terraform"; "fmt"; "-check"; file_path] None);
     (if decide (returncode fmt_result ≠ 0)
      then append (0, "Terraform fmt check failed", "🧹 Format mismatch")
      else mret tt);;
     validate_result ← call (run ["terraform"; "validate"]
                                 (Some (Path.dirname file_path)));
     if decide (returncode validate_result ≠ 0)
     then append (0, Str.strip (stderr validate_result),
                  "🛠️ Terraform syntax error")
     else mret tt)
    (fun e => (0, e, "⚠️ Terraform parsing failed")).

Definition analyze_go_code (file_path : string) : list finding :=
  try_except
    (result ← call (run ["go"; "vet"; file_path] None);
     if decide (stderr result = "") then mret tt
     else
       for_each (Str.splitlines (stderr result)) (fun line =>
         append (0, Str.strip line, "🧪 go vet warning")))
    (fun e => (0, e, "⚠️ Go parsing failed")).

Definition analyze_ruby_code (file_path : string) : list finding :=
  try_except
    (syntax ← call (run ["ruby"; "-c"; file_path] None);
     (if Str.contains "Syntax OK" (stdout syntax) then mret tt
      else append (0, Str.strip (stdout syntax), "🛠️ Ruby syntax error"));;
     which ← call (run ["which"; "rubocop"] None);
     if decide (returncode which = 0) then
       rubo ← call (run ["rubocop"; "--format"; "simple"; file_path] None);
       for_each (Str.splitlines (stdout rubo)) (fun line =>
         if Str.contains ":" line && Str.contains "Offense" line
         then append (0, Str.strip line, "🧹 RuboCop warning")
         else mret tt)
     else mret tt)
    (fun e => (0, e, "⚠️ Ruby parsing failed")).

End External.

(** ** The language router: the [if]/[elif] chain of [review_pr] *)

(** An entry of [debug_findings]: [(filename, lineno, code, reason)]. *)
Definition entry : Type := string * json * json * json.

Definition entry_of (filename : string) (f : finding) : entry :=
  (filename, JInt f.1.1, JStr f.1.2, JStr f.2).

Definition entry_of_json (filename : string) (f : json_finding) : entry :=
  (filename, f.1.1, f.1.2, f.2).

Definition MAGIC_PATTERN : string := "[^\w](\d+(\.\d+)?)[^\w]".

(** The check list of the heuristic analyzer for a file name. *)
Definition checks_for (filename : string) : list check :=
  if Str.endswith ".cpp" filename then
    [MkCheck "\b(std::)?cout|printf\(" "🖨️ C++ debug output";
     MkCheck MAGIC_PATTERN "🔢 Magic number"]
  else if Str.endswith ".java" filename then
    [MkCheck "System\.out\.println" "🖨️ Java debug output";
     MkCheck MAGIC_PATTERN "🔢 Magic number"]
  else if Str.endswith ".rs" filename then
    [MkCheck "dbg!\(|println!\(" "🦀 Rust debug output"]
  else if Str.endswith ".html" filename then
    [MkCheck "<script|<style" "📎 Inline JS/CSS"]
  else if Str.endswith ".css" filename then
    [MkCheck "!important" "🚨 Overuse of !important"]
  else [].

(** The extensions the chain tests, in its order. *)
Definition recognized_extensions : list string :=
  [".py"; ".ts"; ".tsx"; ".js"; ".jsx"; ".cpp"; ".hpp"; ".java"; ".rs";
   ".html"; ".css"; ".tf"; ".go"; ".rb"].

Section Router.

Variable ast_parse : string → string → result module.
Variable readlines : string → result (list string).
Variable re_search : string → string → result bool.
Variable run : list string → option string → result completed.
Variable json_loads : string → result json.
Variable not_iterable : json → string.
Variable bad_subscript : json → string → string.

(** What the chain adds to [debug_findings] for a file: [filename] is the
    name in the commit, [added_code] its added lines, [file_path] the
    temporary file they were written to. *)
Definition route (filename added_code file_path : string) : list entry :=
  if Str.endswith ".py" filename then
    entry_of filename <$> analyze_python_code_ast ast_parse added_code filename
  else if Str.endswith_any [".ts"; ".tsx"; ".js"; ".jsx"] filename then
    entry_of_json filename
      <$> analyze_ts_code run json_loads not_iterable bad_subscript file_path
  else if Str.endswith_any [".cpp"; ".hpp"; ".java"; ".rs"; ".html"; ".css"]
            filename then
    entry_of filename
      <$> analyze_text_file_lines readlines re_search file_path
            (checks_for filename)
  else if Str.endswith ".tf" filename then
    entry_of filename <$> analyze_terraform run file_path
  else if Str.endswith ".go" filename then
    entry_of filename <$> analyze_go_code run file_path
  else if Str.endswith ".rb" filename then
    entry_of filename <$> analyze_ruby_code run file_path
  else [].

End Router.

(** ** The nodes of a tree *)

Definition handler_body (h : excepthandler) : list stmt :=
  match h with ExceptHandler _ body => body end.

Definition case_body (c : match_case) : list stmt :=
  match c with MatchCase _ body => body end.





(** A node of class [FunctionDef]: its line, its name and its body. *)
Record fundef : Type := FunDef {
  fd_lineno : Z;
  fd_name : string;
  fd_body : list stmt
}.

(** The [FunctionDef] nodes of a statement, itself included, at any depth
    (functions, methods, nested functions), first to last.  Statements occur
    only inside statements, handlers and cases. *)
Fixpoint function_defs_stmt (node : stmt) : list fundef :=
  match node with
  | FunctionDef lineno name _ body _ _ =>
      FunDef lineno name body :: flat_map function_defs_stmt body
  | AsyncFunctionDef _ _ _ body _ _ | ClassDef _ _ _ body _ | With _ body =>
      flat_map function_defs_stmt body
  | For _ _ body orelse | While _ body orelse | If _ body orelse =>
      flat_map function_defs_stmt body ++ flat_map function_defs_stmt orelse
  | Try body handlers orelse finalbody =>
      flat_map function_defs_stmt body ++ flat_map function_defs_handler handlers
      ++ flat_map function_defs_stmt orelse
      ++ flat_map function_defs_stmt finalbody
  | Match _ cases => flat_map function_defs_case cases
  | Expr _ | SimpleStmt _ => []
  end
with function_defs_handler (node : excepthandler) : list fundef :=
  match node with
  | ExceptHandler _ body => flat_map function_defs_stmt body
  end
with function_defs_case (node : match_case) : list fundef :=
  match node with
  | MatchCase _ body => flat_map function_defs_stmt body
  end.

Definition function_defs (tree : module) : list fundef :=
  match tree with Module body => flat_map function_defs_stmt body end.

(** The label of a finding, its third component. *)
Definition reason (f : finding) : string := f.2.


Definition numeric (c : Z * constant) : Prop := isinstance_int_float c.2 = true.

#[global] Instance numeric_dec c : Decision (numeric c).
Proof. unfold numeric. apply _. Defined.

(** The finding of a function definition that is too long, and of one that
    is nested too deep. *)
Definition too_long_finding (d : fundef) : finding :=
  (fd_lineno d, fd_name d, Analyzer.TOO_LONG).

Definition too_deep_finding (d : fundef) : finding :=
  (fd_lineno d, fd_name d, Analyzer.TOO_DEEP).

(** The trees of the sources [print(1)] and [True], as [ast.parse] gives
    them. *)
Definition tree_print_1 : module :=
  Module [Expr (Call 1 (Name "print") [Constant 1 (CInt 1)] [])].



(** Modelled from the claim of the nesting depth, to be compared with
    [Analyzer.nesting_depth]: the depth of a sequence without compound
    statements is 1, the depth of a compound statement is 1 + the maximum of
    the depths of each of its nested bodies ([body], [orelse], [finalbody],
    the bodies of its handlers and of its cases), and a sequence has the
    greatest depth of its statements. *)
Fixpoint claimed_depth_stmt (node : stmt) : Z :=
  let seq := fold_right (fun s d => Z.max (claimed_depth_stmt s) d) 1 in
  match node with
  | FunctionDef _ _ _ body _ _ | AsyncFunctionDef _ _ _ body _ _
  | ClassDef _ _ _ body _ | With _ body => 1 + seq body
  | For _ _ body orelse | While _ body orelse | If _ body orelse =>
      1 + Z.max (seq body) (seq orelse)
  | Try body handlers orelse finalbody =>
      1 + Z.max (seq body)
            (Z.max (fold_right
                      (fun h d => Z.max (match h with ExceptHandler _ b => seq b end) d)
                      1 handlers)
                   (Z.max (seq orelse) (seq finalbody)))
  | Match _ cases =>
      1 + fold_right (fun c d => Z.max (match c with MatchCase _ b => seq b end) d)
            1 cases
  | Expr _ | SimpleStmt _ => 1
  end.

Definition claimed_depth (body : list stmt) : Z :=
  fold_right (fun s d => Z.max (claimed_depth_stmt s) d) 1 body.

(** The statements whose nested statements all sit in an attribute [body]:
    no [else], no handler, no [finally], no [match]. *)
Fixpoint body_only (node : stmt) : bool :=
  match node with
  | FunctionDef _ _ _ body _ _ | AsyncFunctionDef _ _ _ body _ _
  | ClassDef _ _ _ body _ | With _ body => forallb body_only body
  | For _ _ body orelse | While _ body orelse | If _ body orelse =>
      forallb body_only body && bool_decide (orelse = [])
  | Try body handlers orelse finalbody =>
      forallb body_only body && bool_decide (handlers = [])
      && bool_decide (orelse = []) && bool_decide (finalbody = [])
  | Match _ _ => false
  | Expr _ | SimpleStmt _ => true
  end.

(** What one statement does to [max_depth], against the depth of the
    claim. *)
Definition step_bounds (s : stmt) : Prop :=
  ∀ level m, level ≤ m →
    m ≤ Analyzer.nesting_depth_step level m s
    ∧ Analyzer.nesting_depth_step level m s
      ≤ Z.max m (level - 1 + claimed_depth_stmt s)
    ∧ (body_only s = true →
       Analyzer.nesting_depth_step level m s
       = Z.max m (level - 1 + claimed_depth_stmt s)).

Abbreviation is_magic := (fun f : finding => reason f = Analyzer.MAGIC_NUMBER).

(** The tree of
<<
def f(a):
    if a:
        pass
    else:
        for x in a:
            while x:
                with x:
                    if x:
                        pass
>> *)
Definition body_nested_in_else : list stmt :=
  [If (Name "a") [SimpleStmt []]
      [For (Name "x") (Name "a")
         [While (Name "x")
            [With [Name "x"] [If (Name "x") [SimpleStmt []] []]]
            []]
         []]].

Definition tree_nested_in_else : module :=
  Module [FunctionDef 1 "f" [] body_nested_in_else [] None].

(** ** The rest of the per-file step of [review_pr] *)

(** [sep.join(parts)] *)
Fixpoint join (sep : string) (parts : list string) : string :=
  match parts with
  | [] => ""
  | [p] => p
  | p :: rest => p +:+ sep +:+ join sep rest
  end.

(** The list of the comprehension of [added_code]: [line[1:]] for the lines
    of the patch that start with [+] and not with [+++]. *)
Definition added_code_lines (patch : string) : list string :=
  Str.drop1
    <$> filter (fun line => Str.startswith "+" line = true
                            ∧ Str.startswith "+++" line = false)
               (Str.splitlines patch).

(** [added_code] *)
Definition added_code (patch : string) : string :=
  join Str.LF (added_code_lines patch).

(** The part of [s] after its last [sep], all of [s] when it has none:
    [s[s.rfind(sep) + 1:]], which is also [s.split(sep)[-1]]; [cur] is the
    part read since the last [sep]. *)
Fixpoint after_last (sep : ascii) (s cur : string) : string :=
  match s with
  | EmptyString => cur
  | String a rest =>
      if Ascii.eqb a sep then after_last sep rest ""
      else after_last sep rest (cur +:+ String a EmptyString)
  end.

(** [os.path.basename] of [posixpath] *)
Definition basename (p : string) : string := after_last "/" p "".

(** [file_path = f"/tmp/{os.path.basename(filename)}"] *)
Definition file_path_of (filename : string) : string :=
  "/tmp/" +:+ basename filename.

(** [ext = file.split('.')[-1]], the label of the fence in the report *)
Definition fence_label (file : string) : string := after_last "." file "".

(** No character of [s] is [c]. *)
Fixpoint free_of (c : ascii) (s : string) : bool :=
  match s with
  | EmptyString => true
  | String a rest => negb (Ascii.eqb a c) && free_of c rest
  end.

(** ** The calls of a tree *)





(** The callee is one of the three the visitor reports. *)
Definition debug_callee (c : Z * expr) : Prop :=
  Analyzer.get_full_name c.2 ∈ ["print"; "pdb.set_trace"; "logging.debug"].


(** The identifiers of a chain of names and attributes have no dot, as the
    identifiers of Python. *)
Fixpoint plain_names (node : expr) : Prop :=
  match node with
  | Name id => free_of "." id = true
  | Attribute value attr => plain_names value ∧ free_of "." attr = true
  | _ => True
  end.

Abbreviation is_debug := (fun f : finding => reason f = Analyzer.DEBUG_CALL).

(** ** One item of the output of the TypeScript analyzer *)

(** The body of the loop of [analyze_ts_code] on one item: the finding
    [(item["line"], item["content"], item["reason"])], or the error of the
    first subscript that fails. *)
Definition item_finding (bad_subscript : json → string → string) (item : json)
  : result json_finding :=
  match getitem bad_subscript item "line" with
  | Raise e => Raise e
  | Ok line =>
      match getitem bad_subscript item "content" with
      | Raise e => Raise e
      | Ok content =>
          match getitem bad_subscript item "reason" with
          | Raise e => Raise e
          | Ok reason => Ok (line, content, reason)
          end
      end
  end.

(** The findings of the lines of the output of [rubocop]. *)
Definition rubocop_findings (out : string) : list finding :=
  (fun line => (0, Str.strip line, "🧹 RuboCop warning"))
    <$> filter (fun line => Str.contains ":" line = true
                            ∧ Str.contains "Offense" line = true)
               (Str.splitlines out).

(** The body of a function that nests four [if] through their [body], and
    the tree of that function. *)
Definition body_nested_if : list stmt :=
  [If (Name "a")
      [If (Name "b")
          [If (Name "c") [If (Name "d") [SimpleStmt []] []] []] []] []].

Definition tree_nested_if : module :=
  Module [FunctionDef 1 "g" [] body_nested_if [] None].

(** ** Constants that [str] renders *)

(** [str] returns on the value of the node. *)
Definition printable (c : Z * constant) : Prop := str_of c.2 = Ok (str_value c.2).

#[global] Instance printable_dec c : Decision (printable c).
Proof. unfold printable. apply _. Defined.

(** The [Constant] nodes that get a finding: those that pass the test of
    [visit_Constant] and on which [str] returns. *)
Definition flagged (c : Z * constant) : Prop := numeric c ∧ printable c.

#[global] Instance flagged_dec c : Decision (flagged c).
Proof. unfold flagged. apply _. Defined.








(** The tree of an [async def] of 51 statements [pass]. *)
Definition tree_async_def : module :=
  Module [AsyncFunctionDef 1 "f" [] (replicate 51 (SimpleStmt [])) [] None].

(** ** The lines of the added code *)

(** [lines] without its last element when that is the empty string: what
    [splitlines] gives back for lines joined by line feeds. *)
Fixpoint without_last_empty (lines : list string) : list string :=
  match lines with
  | [] => []
  | [l] => if decide (l = "") then [] else [l]
  | l :: rest => l :: without_last_empty rest
  end.

(** Nothing, or a text that starts with a line feed. *)
Definition ends_line (rest : string) : Prop :=
  rest = "" ∨ ∃ t, rest = String (Str.byte 10) t.

(** No line boundary starts inside [l], whether [l] ends the text or is
    followed by a line feed. *)
Definition clean (l : string) : Prop :=
  ∀ pre suf rest, l = pre +:+ suf → suf ≠ "" → ends_line rest →
    Str.linebreak (suf +:+ rest) = 0%nat.

(** The line read so far has no boundary before the text still to read. *)
Definition clean_before (cur s : string) : Prop :=
  ∀ pre suf, cur = pre +:+ suf → suf ≠ "" → Str.linebreak (suf +:+ s) = 0%nat.

(** A patch whose last added line is empty. *)
Definition patch_a_empty : string := "+a" +:+ Str.LF +:+ "+".

(** * Properties *)

(** ** The extraction step *)

Lemma startswith_plus_minus line :
  Str.startswith "+" line = true → Str.startswith "-" line = false.
Proof.
  destruct line as [|a r]; [done|]. cbn [Str.startswith].
  destruct (Ascii.eqb_spec "+"%char a) as [<-|]; [reflexivity|discriminate].
Qed.

Lemma get_set_setdefault_add key x d name :
  get_set (setdefault_add key x d) name
  = if decide (key = name) then {[x]} ∪ get_set d name else get_set d name.
Proof.
  unfold setdefault_add, get_set at 1. rewrite lookup_insert.
  case_decide; subst; done.
Qed.

Lemma scan_line_added fn st line name x :
  x ∈ get_set (added_lines (scan_line fn st line)) name
  ↔ x ∈ get_set (added_lines st) name
    ∨ (name = fn ∧ plus_line line ∧ x = Str.strip (Str.drop1 line)).
Proof.
  unfold scan_line, plus_line.
  destruct (Str.startswith "+" line) eqn:Hp; cbn [andb negb].
  - destruct (Str.startswith "+++" line) eqn:Hh; cbn [andb negb].
    + rewrite (startswith_plus_minus _ Hp). cbn [andb]. naive_solver.
    + cbn [added_lines]. rewrite get_set_setdefault_add. case_decide; set_solver.
  - destruct (Str.startswith "-" line && negb (Str.startswith "---" line));
      cbn [added_lines]; naive_solver.
Qed.

Lemma scan_line_removed fn st line name x :
  x ∈ get_set (removed_lines (scan_line fn st line)) name
  ↔ x ∈ get_set (removed_lines st) name
    ∨ (name = fn ∧ minus_line line ∧ x = Str.strip (Str.drop1 line)).
Proof.
  unfold scan_line, minus_line.
  destruct (Str.startswith "+" line) eqn:Hp; cbn [andb negb].
  - rewrite (startswith_plus_minus _ Hp).
    destruct (Str.startswith "+++" line); cbn [andb negb removed_lines];
      naive_solver.
  - destruct (Str.startswith "-" line) eqn:Hm; cbn [andb negb]; [|naive_solver].
    destruct (Str.startswith "---" line) eqn:Hh; cbn [andb negb]; [naive_solver|].
    cbn [removed_lines]. rewrite get_set_setdefault_add. case_decide; set_solver.
Qed.

Lemma scan_lines_added fn lines : ∀ st name x,
  x ∈ get_set (added_lines (fold_left (scan_line fn) lines st)) name
  ↔ x ∈ get_set (added_lines st) name
    ∨ (name = fn ∧ ∃ line, line ∈ lines ∧ plus_line line
                           ∧ x = Str.strip (Str.drop1 line)).
Proof.
  induction lines as [|l lines IH]; intros st name x; simpl.
  - set_solver.
  - rewrite IH, scan_line_added. set_solver.
Qed.

Lemma scan_lines_removed fn lines : ∀ st name x,
  x ∈ get_set (removed_lines (fold_left (scan_line fn) lines st)) name
  ↔ x ∈ get_set (removed_lines st) name
    ∨ (name = fn ∧ ∃ line, line ∈ lines ∧ minus_line line
                           ∧ x = Str.strip (Str.drop1 line)).
Proof.
  induction lines as [|l lines IH]; intros st name x; simpl.
  - set_solver.
  - rewrite IH, scan_line_removed. set_solver.
Qed.

Lemma scan_file_added st f name x :
  x ∈ get_set (added_lines (scan_file st f)) name
  ↔ x ∈ get_set (added_lines st) name
    ∨ (name = filename f ∧ contributes plus_line f x).
Proof.
  unfold scan_file, contributes. destruct (patch f) as [p|]; cbn [default from_option id].
  - case_decide as Hp.
    + subst p. split; [tauto|]. intros [?|(_ & p & line & [= <-] & Hin & _)]; [done|].
      by apply elem_of_nil in Hin.
    + rewrite scan_lines_added. naive_solver.
  - rewrite decide_True by done. naive_solver.
Qed.

Lemma scan_file_removed st f name x :
  x ∈ get_set (removed_lines (scan_file st f)) name
  ↔ x ∈ get_set (removed_lines st) name
    ∨ (name = filename f ∧ contributes minus_line f x).
Proof.
  unfold scan_file, contributes. destruct (patch f) as [p|]; cbn [default from_option id].
  - case_decide as Hp.
    + subst p. split; [tauto|]. intros [?|(_ & p & line & [= <-] & Hin & _)]; [done|].
      by apply elem_of_nil in Hin.
    + rewrite scan_lines_removed. naive_solver.
  - rewrite decide_True by done. naive_solver.
Qed.

Lemma get_set_empty name : get_set ∅ name = ∅.
Proof. unfold get_set. by rewrite lookup_empty. Qed.

Lemma elem_of_Added p x :
  x ∈ Added p ↔ contributes plus_line (File "f" p) x.
Proof.
  unfold Added. rewrite scan_file_added. cbn [no_lines added_lines filename].
  rewrite get_set_empty. set_solver.
Qed.

Lemma elem_of_Removed p x :
  x ∈ Removed p ↔ contributes minus_line (File "f" p) x.
Proof.
  unfold Removed. rewrite scan_file_removed. cbn [no_lines removed_lines filename].
  rewrite get_set_empty. set_solver.
Qed.

Lemma contributes_patch P f g x :
  patch f = patch g → contributes P f x → contributes P g x.
Proof. unfold contributes. intros ->. done. Qed.

Lemma scan_file_Added st f name :
  get_set (added_lines (scan_file st f)) name
  = get_set (added_lines st) name
    ∪ (if decide (filename f = name) then Added (patch f) else ∅).
Proof.
  apply set_eq. intros x. rewrite scan_file_added, elem_of_union.
  case_decide as Hn.
  - rewrite elem_of_Added. split; (intros [?|H]; [by left|right]).
    + destruct H as [_ H]. by eapply contributes_patch, H.
    + split; [done|]. by eapply contributes_patch, H.
  - set_solver.
Qed.

Lemma scan_file_Removed st f name :
  get_set (removed_lines (scan_file st f)) name
  = get_set (removed_lines st) name
    ∪ (if decide (filename f = name) then Removed (patch f) else ∅).
Proof.
  apply set_eq. intros x. rewrite scan_file_removed, elem_of_union.
  case_decide as Hn.
  - rewrite elem_of_Removed. split; (intros [?|H]; [by left|right]).
    + destruct H as [_ H]. by eapply contributes_patch, H.
    + split; [done|]. by eapply contributes_patch, H.
  - set_solver.
Qed.

(** ** The running unions *)

Lemma Added_union_app l1 l2 name :
  Added_union (l1 ++ l2) name = Added_union l1 name ∪ Added_union l2 name.
Proof. unfold Added_union. by rewrite fmap_app, union_list_app_L. Qed.

Lemma Removed_union_app l1 l2 name :
  Removed_union (l1 ++ l2) name = Removed_union l1 name ∪ Removed_union l2 name.
Proof. unfold Removed_union. by rewrite fmap_app, union_list_app_L. Qed.

Lemma scan_files_Added files : ∀ st name,
  get_set (added_lines (fold_left scan_file files st)) name
  = get_set (added_lines st) name ∪ Added_union files name.
Proof.
  induction files as [|f files IH]; intros st name; simpl.
  - unfold Added_union. simpl. set_solver.
  - rewrite IH, scan_file_Added. unfold Added_union. simpl. set_solver.
Qed.

Lemma scan_files_Removed files : ∀ st name,
  get_set (removed_lines (fold_left scan_file files st)) name
  = get_set (removed_lines st) name ∪ Removed_union files name.
Proof.
  induction files as [|f files IH]; intros st name; simpl.
  - unfold Removed_union. simpl. set_solver.
  - rewrite IH, scan_file_Removed. unfold Removed_union. simpl. set_solver.
Qed.

Lemma elem_of_Added_union files name x :
  x ∈ Added_union files name
  ↔ ∃ f, f ∈ files ∧ filename f = name ∧ x ∈ Added (patch f).
Proof.
  unfold Added_union. rewrite elem_of_union_list. split.
  - intros (X & HX & Hx). apply list_elem_of_fmap in HX as (f & -> & Hf).
    case_decide; [eauto|set_solver].
  - intros (f & Hf & Hn & Hx). eexists. split.
    + apply list_elem_of_fmap. eauto.
    + by rewrite decide_True.
Qed.

Lemma elem_of_Removed_union files name x :
  x ∈ Removed_union files name
  ↔ ∃ f, f ∈ files ∧ filename f = name ∧ x ∈ Removed (patch f).
Proof.
  unfold Removed_union. rewrite elem_of_union_list. split.
  - intros (X & HX & Hx). apply list_elem_of_fmap in HX as (f & -> & Hf).
    case_decide; [eauto|set_solver].
  - intros (f & Hf & Hn & Hx). eexists. split.
    + apply list_elem_of_fmap. eauto.
    + by rewrite decide_True.
Qed.

(** ** The whole change request *)

Section ReconcilerFacts.

Variable fetch : string → result (list file).

Lemma elem_of_changed_files commits f :
  f ∈ changed_files fetch commits
  ↔ ∃ c files, c ∈ commits ∧ fetch (sha c) = Ok files ∧ f ∈ files.
Proof.
  unfold changed_files. rewrite list_elem_of_In, in_flat_map. split.
  - intros (c & Hc & Hf). apply list_elem_of_In in Hc.
    destruct (fetch (sha c)) as [files|e] eqn:E; [|by destruct Hf].
    apply list_elem_of_In in Hf. eauto.
  - intros (c & files & Hc & E & Hf). exists c.
    rewrite E, <- !list_elem_of_In. done.
Qed.

Lemma scan_commits_fetched commits : ∀ st st',
  scan_commits fetch commits st = Ok st' → Forall (fetched fetch) commits.
Proof.
  induction commits as [|c commits IH]; intros st st' H; [constructor|].
  simpl in H. destruct (fetch (sha c)) as [files|e] eqn:E; [|done].
  constructor; [by exists files|by eapply IH].
Qed.

Lemma scan_commits_total commits : ∀ st,
  Forall (fetched fetch) commits → ∃ st', scan_commits fetch commits st = Ok st'.
Proof.
  induction commits as [|c commits IH]; intros st H; simpl; [eauto|].
  inversion H as [|? ? [files E] H']; subst. rewrite E. apply IH, H'.
Qed.

Lemma scan_commits_Added commits : ∀ st st' name,
  scan_commits fetch commits st = Ok st' →
  get_set (added_lines st') name
  = get_set (added_lines st) name ∪ Added_union (changed_files fetch commits) name.
Proof.
  induction commits as [|c commits IH]; intros st st' name H; simpl in *.
  - injection H as <-. unfold Added_union. simpl. set_solver.
  - destruct (fetch (sha c)) as [files|e]; [|done].
    rewrite (IH _ _ _ H), scan_files_Added, Added_union_app. set_solver.
Qed.

Lemma scan_commits_Removed commits : ∀ st st' name,
  scan_commits fetch commits st = Ok st' →
  get_set (removed_lines st') name
  = get_set (removed_lines st) name
    ∪ Removed_union (changed_files fetch commits) name.
Proof.
  induction commits as [|c commits IH]; intros st st' name H; simpl in *.
  - injection H as <-. unfold Removed_union. simpl. set_solver.
  - destruct (fetch (sha c)) as [files|e]; [|done].
    rewrite (IH _ _ _ H), scan_files_Removed, Removed_union_app. set_solver.
Qed.

Lemma lookup_deleted_lines st name :
  deleted_lines st !! name
  = let deleted := get_set (added_lines st) name ∩ get_set (removed_lines st) name in
    if decide (deleted = ∅) then None else Some deleted.
Proof.
  unfold deleted_lines. rewrite map_lookup_imap. cbv zeta.
  change (get_set (added_lines st) name) with (default ∅ (added_lines st !! name)).
  destruct (added_lines st !! name) as [a|]; simpl; [done|].
  rewrite decide_True; [done|set_solver].
Qed.

Lemma track_lookup commits m name :
  track_add_delete_lines fetch commits = Ok m →
  m !! name = if decide (cancelled fetch commits name = ∅) then None
              else Some (cancelled fetch commits name).
Proof.
  unfold track_add_delete_lines.
  destruct (scan_commits fetch commits no_lines) as [st|e] eqn:E; [|done].
  intros [= <-]. rewrite lookup_deleted_lines.
  rewrite (scan_commits_Added _ _ _ name E), (scan_commits_Removed _ _ _ name E).
  cbn [no_lines added_lines removed_lines]. rewrite get_set_empty.
  unfold cancelled. rewrite !(left_id_L ∅ (∪)). done.
Qed.

Lemma track_total commits :
  Forall (fetched fetch) commits → ∃ m, track_add_delete_lines fetch commits = Ok m.
Proof.
  intros H. unfold track_add_delete_lines.
  destruct (scan_commits_total commits no_lines H) as [st ->]. eauto.
Qed.

Lemma track_fetched commits m :
  track_add_delete_lines fetch commits = Ok m → Forall (fetched fetch) commits.
Proof.
  unfold track_add_delete_lines.
  destruct (scan_commits fetch commits no_lines) as [st|e] eqn:E; [|done].
  intros _. by eapply scan_commits_fetched.
Qed.

Lemma cancelled_same_commits commits commits' name :
  (∀ c, c ∈ commits ↔ c ∈ commits') →
  cancelled fetch commits name = cancelled fetch commits' name.
Proof.
  intros Hsame. unfold cancelled.
  assert (∀ f, f ∈ changed_files fetch commits ↔ f ∈ changed_files fetch commits')
    as Hfiles.
  { intros f. rewrite !elem_of_changed_files.
    split; intros (c & files & Hc & H); exists c, files; by rewrite Hsame in *. }
  apply set_eq. intros x.
  rewrite !elem_of_intersection, !elem_of_Added_union, !elem_of_Removed_union.
  split; intros [(f & Hf & H1) (g & Hg & H2)]; (split; [exists f|exists g]);
    by rewrite Hfiles in *.
Qed.

Lemma track_same_commits commits commits' m :
  (∀ c, c ∈ commits ↔ c ∈ commits') →
  track_add_delete_lines fetch commits = Ok m →
  track_add_delete_lines fetch commits' = Ok m.
Proof.
  intros Hsame H.
  assert (Forall (fetched fetch) commits') as H'.
  { apply Forall_forall. intros c Hc. apply Hsame in Hc.
    pose proof (track_fetched _ _ H) as Hall.
    by apply (proj1 (Forall_forall _ _) Hall). }
  destruct (track_total _ H') as [m' Hm']. rewrite Hm'. f_equal.
  apply map_eq. intros name.
  rewrite (track_lookup _ _ name H), (track_lookup _ _ name Hm').
  by rewrite (cancelled_same_commits commits commits' name Hsame).
Qed.

Lemma track_patch_x c :
  fetch (sha c) = Ok [File "a.py" (Some patch_x)] →
  track_add_delete_lines fetch [c] = Ok {[ "a.py" := {[ "x = 1" ]} ]}.
Proof.
  intros H. unfold track_add_delete_lines. cbn [scan_commits]. rewrite H.
  vm_compute. reflexivity.
Qed.

End ReconcilerFacts.

(** C2. For every patch body, the extraction step of
    [track_add_delete_lines] puts [x] into the Added set of the file exactly
    when some line of the patch begins with [+], does not begin with [+++],
    and [x] is the text after the leading [+], trimmed; symmetrically for the
    Removed set with [-] and [---].  A line that begins with neither marker
    (a context line, a hunk header) changes neither set, and an absent or
    empty patch body leaves both sets as they were, empty when starting from
    nothing; no error is involved, the step is a total function. *)
Theorem extraction_step_sets :
  (∀ st f name x,
     x ∈ get_set (added_lines (scan_file st f)) name
     ↔ x ∈ get_set (added_lines st) name
       ∨ (name = filename f
          ∧ ∃ p line, patch f = Some p ∧ line ∈ Str.splitlines p
              ∧ (Str.startswith "+" line = true ∧ Str.startswith "+++" line = false)
              ∧ x = Str.strip (Str.drop1 line)))
  ∧ (∀ st f name x,
     x ∈ get_set (removed_lines (scan_file st f)) name
     ↔ x ∈ get_set (removed_lines st) name
       ∨ (name = filename f
          ∧ ∃ p line, patch f = Some p ∧ line ∈ Str.splitlines p
              ∧ (Str.startswith "-" line = true ∧ Str.startswith "---" line = false)
              ∧ x = Str.strip (Str.drop1 line)))
  ∧ (∀ name st line,
       Str.startswith "+" line = false → Str.startswith "-" line = false →
       scan_line name st line = st)
  ∧ (∀ st name,
       scan_file st (File name None) = st ∧ scan_file st (File name (Some "")) = st)
  ∧ Added None = ∅ ∧ Removed None = ∅ ∧ Added (Some "") = ∅ ∧ Removed (Some "") = ∅.
Proof.
  split; [exact scan_file_added|]. split; [exact scan_file_removed|].
  split; [|split; [by intros|by repeat split]].
  intros name st line Hp Hm. unfold scan_line. by rewrite Hp, Hm.
Qed.

Lemma extraction_step_sets_witness :
  scan_line "a.py" no_lines "@@ -1,2 +1,2 @@" = no_lines
  ∧ scan_line "a.py" no_lines " x = 1" = no_lines.
Proof.
  destruct extraction_step_sets as (_ & _ & H & _).
  split; apply H; reflexivity.
Defined.

(** C1. When the host answers for every commit of a change request,
    [track_add_delete_lines] returns a map that contains a file name exactly
    when the intersection of the file's Added union and Removed union over
    all commits is not empty, and maps it to exactly that intersection.  A
    line is in that intersection exactly when some patch of the file has it
    as a [+] line and some patch of the file has it as a [-] line; so a
    change request with the same commits in another order, or with commits
    repeated, gives the same map.  For one commit whose file [a.py] has the
    patch body [+x = 1], [-x = 1] the result maps [a.py] to the set of the one
    line [x = 1]. *)
Theorem track_add_delete_lines_cancelled (fetch : string → result (list file)) :
  (∀ commits, Forall (fetched fetch) commits →
     ∃ m, track_add_delete_lines fetch commits = Ok m
       ∧ (∀ name, is_Some (m !! name) ↔ cancelled fetch commits name ≠ ∅)
       ∧ (∀ name s, m !! name = Some s → s = cancelled fetch commits name)
       ∧ (∀ name x, x ∈ cancelled fetch commits name
            ↔ (∃ f, f ∈ changed_files fetch commits ∧ filename f = name
                    ∧ contributes plus_line f x)
              ∧ (∃ f, f ∈ changed_files fetch commits ∧ filename f = name
                      ∧ contributes minus_line f x))
       ∧ (∀ commits', (∀ c, c ∈ commits ↔ c ∈ commits') →
            track_add_delete_lines fetch commits' = Ok m))
  ∧ (∀ c, fetch (sha c) = Ok [File "a.py" (Some patch_x)] →
       track_add_delete_lines fetch [c] = Ok {[ "a.py" := {[ "x = 1" ]} ]}).
Proof.
  split; [|apply track_patch_x].
  intros commits Hall. destruct (track_total fetch commits Hall) as [m Hm].
  exists m. split; [done|]. split; [|split; [|split]].
  - intros name. rewrite (track_lookup _ _ _ name Hm).
    case_decide as He; split; [by intros []|done|done|by eauto].
  - intros name s. rewrite (track_lookup _ _ _ name Hm).
    case_decide; [done|by intros [= <-]].
  - intros name x. unfold cancelled.
    rewrite elem_of_intersection, elem_of_Added_union, elem_of_Removed_union.
    setoid_rewrite elem_of_Added. setoid_rewrite elem_of_Removed.
    split; intros [(f & Hf & Hn & H1) (g & Hg & Hn' & H2)];
      (split; [exists f|exists g]); (split; [done|split; [done|]]);
      by eapply contributes_patch; [|eassumption].
  - intros commits' Hsame. by eapply track_same_commits.
Qed.

Lemma track_add_delete_lines_cancelled_witness :
  track_add_delete_lines (fun _ => Ok [File "a.py" (Some patch_x)]) [Commit "c0"]
  = Ok {[ "a.py" := {[ "x = 1" ]} ]}.
Proof.
  apply (proj2 (track_add_delete_lines_cancelled
                  (fun _ => Ok [File "a.py" (Some patch_x)]))).
  reflexivity.
Defined.

(** ** Induction over syntax trees *)

Section expr_induction.

Variable P : expr → Prop.
Hypothesis HName : ∀ id, P (Name id).
Hypothesis HAttribute : ∀ value attr, P value → P (Attribute value attr).
Hypothesis HCall : ∀ lineno func args keywords,
  P func → Forall P args → Forall P keywords →
  P (Call lineno func args keywords).
Hypothesis HConstant : ∀ lineno value, P (Constant lineno value).
Hypothesis HOtherExpr : ∀ children, Forall P children → P (OtherExpr children).

Lemma expr_nested_ind : ∀ e, P e.
Proof.
  fix IH 1. intros [id|value attr|lineno func args keywords|lineno value|children].
  - apply HName.
  - apply HAttribute, IH.
  - apply HCall; [apply IH| |].
    + induction args; constructor; [apply IH|assumption].
    + induction keywords; constructor; [apply IH|assumption].
  - apply HConstant.
  - apply HOtherExpr. induction children; constructor; [apply IH|assumption].
Qed.

End expr_induction.

Section stmt_induction.

Variable P : stmt → Prop.
Let Ph (h : excepthandler) : Prop := Forall P (handler_body h).
Let Pc (c : match_case) : Prop := Forall P (case_body c).

Hypothesis HFunctionDef : ∀ lineno name args body decorator_list returns,
  Forall P body → P (FunctionDef lineno name args body decorator_list returns).
Hypothesis HAsyncFunctionDef : ∀ lineno name args body decorator_list returns,
  Forall P body →
  P (AsyncFunctionDef lineno name args body decorator_list returns).
Hypothesis HClassDef : ∀ name bases keywords body decorator_list,
  Forall P body → P (ClassDef name bases keywords body decorator_list).
Hypothesis HFor : ∀ target iter body orelse,
  Forall P body → Forall P orelse → P (For target iter body orelse).
Hypothesis HWhile : ∀ test body orelse,
  Forall P body → Forall P orelse → P (While test body orelse).
Hypothesis HIf : ∀ test body orelse,
  Forall P body → Forall P orelse → P (If test body orelse).
Hypothesis HWith : ∀ items body, Forall P body → P (With items body).
Hypothesis HTry : ∀ body handlers orelse finalbody,
  Forall P body → Forall Ph handlers → Forall P orelse → Forall P finalbody →
  P (Try body handlers orelse finalbody).
Hypothesis HMatch : ∀ subject cases, Forall Pc cases → P (Match subject cases).
Hypothesis HExpr : ∀ value, P (Expr value).
Hypothesis HSimpleStmt : ∀ children, P (SimpleStmt children).

Lemma stmt_nested_ind : ∀ s, P s.
Proof.
  fix IH 1. intros s.
  destruct s as [? ? ? body ? ?|? ? ? body ? ?|? ? ? body ?|? ? body orelse
                |? body orelse|? body orelse|? body
                |body handlers orelse finalbody|? cases|?|?].
  - apply HFunctionDef. induction body; constructor; [apply IH|assumption].
  - apply HAsyncFunctionDef. induction body; constructor; [apply IH|assumption].
  - apply HClassDef. induction body; constructor; [apply IH|assumption].
  - apply HFor.
    + induction body; constructor; [apply IH|assumption].
    + induction orelse; constructor; [apply IH|assumption].
  - apply HWhile.
    + induction body; constructor; [apply IH|assumption].
    + induction orelse; constructor; [apply IH|assumption].
  - apply HIf.
    + induction body; constructor; [apply IH|assumption].
    + induction orelse; constructor; [apply IH|assumption].
  - apply HWith. induction body; constructor; [apply IH|assumption].
  - apply HTry.
    + induction body; constructor; [apply IH|assumption].
    + induction handlers as [|[type hbody] handlers IHh]; constructor;
        [|assumption].
      unfold Ph. simpl. induction hbody; constructor; [apply IH|assumption].
    + induction orelse; constructor; [apply IH|assumption].
    + induction finalbody; constructor; [apply IH|assumption].
  - apply HMatch.
    induction cases as [|[pattern cbody] cases IHc]; constructor; [|assumption].
    unfold Pc. simpl. induction cbody; constructor; [apply IH|assumption].
  - apply HExpr.
  - apply HSimpleStmt.
Qed.

End stmt_induction.

(** ** The walk of the visitor *)

Section flat_map_facts.

Context {A B C : Type}.

Lemma filter_flat_map (P : B → Prop) `{!∀ x, Decision (P x)}
    (f : A → list B) (l : list A) :
  filter P (flat_map f l) = flat_map (fun x => filter P (f x)) l.
Proof. induction l as [|x l IH]; simpl; [done|]. by rewrite filter_app, IH. Qed.

Lemma flat_map_Forall_eq (f g : A → list B) (l : list A) :
  Forall (fun x => f x = g x) l → flat_map f l = flat_map g l.
Proof. induction 1 as [|x l Hx _ IH]; simpl; [done|]. by rewrite Hx, IH. Qed.

Lemma flat_map_nil (f : A → list B) (l : list A) :
  Forall (fun x => f x = []) l → flat_map f l = [].
Proof. induction 1 as [|x l Hx _ IH]; simpl; [done|]. by rewrite Hx, IH. Qed.


Lemma filter_flat_map_flat_map (P : B → Prop) `{!∀ x, Decision (P x)}
    (k : C → list B) (f : A → list B) (h : A → list C) (l : list A) :
  Forall (fun x => filter P (f x) = flat_map k (h x)) l →
  filter P (flat_map f l) = flat_map k (flat_map h l).
Proof.
  induction 1 as [|x l Hx _ IH]; simpl; [done|].
  by rewrite filter_app, flat_map_app, Hx, IH.
Qed.

End flat_map_facts.

Lemma Forall_all {A} (P : A → Prop) (l : list A) : (∀ x, P x) → Forall P l.
Proof. intros H. apply Forall_forall. auto. Qed.

Import Analyzer.

Lemma labels_distinct :
  NoDup [DEBUG_CALL; MAGIC_NUMBER; TOO_LONG; TOO_DEEP].
Proof. repeat constructor; set_unfold; intros H; repeat destruct H as [H|H]; done. Qed.

(** ** Appends that may raise *)

Section steps_facts.

Context {F : Type}.

Lemma oks_app (a b : list (step F)) : oks (a ++ b) = oks a ++ oks b.
Proof. apply flat_map_app. Qed.

Lemma oks_flat_map {A} (f : A → list (step F)) (l : list A) :
  oks (flat_map f l) = flat_map (fun x => oks (f x)) l.
Proof. induction l as [|x l IH]; simpl; [done|]. by rewrite oks_app, IH. Qed.

Lemma oks_Ok (fs : list F) : oks (Ok <$> fs) = fs.
Proof. induction fs as [|f fs IH]; [done|]. cbn. f_equal. exact IH. Qed.

Lemma raises_app (a b : list (step F)) : raises (a ++ b) = raises a ++ raises b.
Proof. apply flat_map_app. Qed.

Lemma raises_flat_map {A} (f : A → list (step F)) (l : list A) :
  raises (flat_map f l) = flat_map (fun x => raises (f x)) l.
Proof. induction l as [|x l IH]; simpl; [done|]. by rewrite raises_app, IH. Qed.


Lemma run_cons_Ok (f : F) (steps : list (step F)) :
  run (Ok f :: steps) = (f :: (run steps).1, (run steps).2).
Proof. cbn [run]. unfold append, mbind, attempt_bind. by destruct (run steps). Qed.

(** A run appends the findings of its steps, first to last, and stops at
    the first step that raises. *)
Lemma run_prefix (steps : list (step F)) : (run steps).1 `prefix_of` oks steps.
Proof.
  induction steps as [|[f|e] steps IH].
  - done.
  - rewrite run_cons_Ok. cbn. by apply prefix_cons.
  - apply prefix_nil.
Qed.

Lemma run_Ok (steps : list (step F)) :
  (run steps).2 = Ok tt → (run steps).1 = oks steps ∧ raises steps = [].
Proof.
  induction steps as [|[f|e] steps IH]; [done| |done].
  rewrite run_cons_Ok. cbn [fst snd]. intros H. destruct (IH H) as [E1 E2].
  split; [|exact E2].
  change (oks (Ok f :: steps)) with (f :: oks steps). by rewrite E1.
Qed.

Lemma interrupted_prefix stop (block : attempt F unit) :
  (interrupted stop block).1 `prefix_of` block.1.
Proof.
  destruct stop as [[k e]|]; cbn [interrupted]; [|done].
  case_decide as Hk; [|done]. exists (drop k block.1). cbn [fst].
  by rewrite take_drop.
Qed.

Lemma interrupted_Ok stop (block : attempt F unit) :
  (interrupted stop block).2 = Ok tt → interrupted stop block = block.
Proof. destruct stop as [[k e]|]; cbn [interrupted]; [|done]. by case_decide as Hk. Qed.

Lemma try_except_findings (block : attempt F unit) (handler : string → F) :
  try_except block handler
  = block.1 ++ match block.2 with Ok _ => [] | Raise e => [handler e] end.
Proof. destruct block as [fs [[]|e]]; cbn; by rewrite ?app_nil_r. Qed.

Lemma filter_try_except (P : F → Prop) `{!∀ x, Decision (P x)}
    (block : attempt F unit) (handler : string → F) :
  (∀ e, ¬ P (handler e)) →
  filter P (try_except block handler) = filter P block.1.
Proof.
  intros HP. rewrite try_except_findings, filter_app.
  destruct block.2; [by rewrite app_nil_r|].
  by rewrite filter_cons_False, app_nil_r.
Qed.

Lemma prefix_of_filter (P : F → Prop) `{!∀ x, Decision (P x)} (l1 l2 : list F) :
  l1 `prefix_of` l2 → filter P l1 `prefix_of` filter P l2.
Proof. intros [k ->]. rewrite filter_app. by eexists. Qed.

Lemma prefix_of_elem (l1 l2 : list F) x : l1 `prefix_of` l2 → x ∈ l1 → x ∈ l2.
Proof. intros [k ->] Hx. apply elem_of_app. by left. Qed.

End steps_facts.

Section steps_flat_map.

Context {A B C : Type}.


Lemma filter_oks_flat_map_flat_map (P : B → Prop) `{!∀ x, Decision (P x)}
    (k : C → list B) (f : A → list (step B)) (h : A → list C) (l : list A) :
  Forall (fun x => filter P (oks (f x)) = flat_map k (h x)) l →
  filter P (oks (flat_map f l)) = flat_map k (flat_map h l).
Proof.
  intros Hl. rewrite oks_flat_map.
  by apply (filter_flat_map_flat_map P k (fun x => oks (f x)) h l).
Qed.


End steps_flat_map.

(** ** The walk of the visitor *)


(** The findings of an expression are debug calls and magic numbers. *)
Lemma visit_expr_reasons e :
  Forall (fun f => reason f = DEBUG_CALL ∨ reason f = MAGIC_NUMBER)
         (oks (visit_expr e)).
Proof.
  induction e as [id|value attr IH|lineno func args keywords IHf IHa IHk
                 |lineno value|children IH] using expr_nested_ind;
    cbn [visit_expr].
  - constructor.
  - done.
  - rewrite !oks_app, !oks_flat_map. repeat apply Forall_app_2.
    + case_bool_decide; [|constructor]. constructor; [by left|constructor].
    + done.
    + clear -IHa. induction IHa; simpl; [constructor|by apply Forall_app_2].
    + clear -IHk. induction IHk; simpl; [constructor|by apply Forall_app_2].
  - destruct (isinstance_int_float value); [|constructor].
    destruct (str_of value); [|constructor].
    constructor; [by right|constructor].
  - rewrite oks_flat_map.
    induction IH; simpl; [constructor|by apply Forall_app_2].
Qed.

Lemma filter_none {A} (P : A → Prop) `{!∀ x, Decision (P x)} (l : list A) :
  Forall (fun x => ¬ P x) l → filter P l = [].
Proof.
  induction 1 as [|x l Hx _ IH]; [done|].
  by rewrite filter_cons_False.
Qed.

Section function_findings.

(** A selection of findings that keeps no debug call and no magic
    number. *)
Variable Q : finding → Prop.
Context `{!∀ f, Decision (Q f)}.
Hypothesis Q_not_expr :
  ∀ f, reason f = DEBUG_CALL ∨ reason f = MAGIC_NUMBER → ¬ Q f.

Let checks (d : fundef) : list finding :=
  filter Q (function_checks (fd_lineno d) (fd_name d) (fd_body d)).

Lemma filter_visit_expr e : filter Q (oks (visit_expr e)) = [].
Proof.
  apply filter_none. eapply Forall_impl; [apply visit_expr_reasons|].
  intros f. apply Q_not_expr.
Qed.

Lemma filter_visit_exprs l : filter Q (oks (flat_map visit_expr l)) = [].
Proof.
  rewrite oks_flat_map, filter_flat_map.
  apply flat_map_nil, Forall_all, filter_visit_expr.
Qed.

Lemma filter_visit_option r : filter Q (oks (visit_option r)) = [].
Proof. destruct r; [apply filter_visit_expr|done]. Qed.

Lemma filter_visit_body body :
  Forall (fun s => filter Q (oks (visit_stmt s))
                   = flat_map checks (function_defs_stmt s)) body →
  filter Q (oks (flat_map visit_stmt body))
  = flat_map checks (flat_map function_defs_stmt body).
Proof. apply filter_oks_flat_map_flat_map. Qed.

Lemma filter_visit_stmt s :
  filter Q (oks (visit_stmt s)) = flat_map checks (function_defs_stmt s).
Proof.
  induction s using stmt_nested_ind;
    cbn [visit_stmt function_defs_stmt flat_map];
    rewrite ?oks_app, ?oks_Ok, ?filter_app, ?flat_map_app, ?filter_visit_exprs,
      ?filter_visit_expr, ?filter_visit_option, ?app_nil_r; cbn [app];
    rewrite ?filter_visit_body by assumption; try done.
  - (* Try *)
    do 3 f_equal. apply filter_oks_flat_map_flat_map.
    eapply Forall_impl; [eassumption|]. intros [type hbody] Hb.
    cbn [visit_handler function_defs_handler handler_body] in *.
    by rewrite oks_app, filter_app, filter_visit_exprs, filter_visit_body.
  - (* Match *)
    apply filter_oks_flat_map_flat_map.
    eapply Forall_impl; [eassumption|]. intros [pattern cbody] Hb.
    cbn [visit_case function_defs_case case_body] in *.
    by rewrite oks_app, filter_app, filter_visit_exprs, filter_visit_body.
Qed.

Lemma filter_visit tree :
  filter Q (oks (visit tree)) = flat_map checks (function_defs tree).
Proof.
  destruct tree as [body]. cbn [visit function_defs].
  apply filter_oks_flat_map_flat_map, Forall_all.
  apply filter_visit_stmt.
Qed.

End function_findings.

(** ** Magic numbers *)








(** ** The constants on which [str] raises *)

Abbreviation refused := (fun c : Z * constant => numeric c ∧ ¬ printable c).
Abbreviation refusal := (fun _ : Z * constant => INT_MAX_STR_ERROR).










(** ** The structural analyzer *)

Abbreviation parse_failure :=
  (fun e : string => ((0, "AST parsing failed: " +:+ e, "⚠️") : finding)).

Section StructuralFacts.

Variable ast_parse : string → string → result module.
Variable recursion_error : option (nat * string).

Lemma analyze_limited_parsed source_code filename tree :
  ast_parse source_code filename = Ok tree →
  analyze_python_code_ast_limited ast_parse recursion_error source_code filename
  = try_except (walk recursion_error tree) parse_failure.
Proof.
  intros H. unfold analyze_python_code_ast_limited, call, mbind, attempt_bind.
  rewrite H. cbn [app]. by destruct (walk recursion_error tree).
Qed.

Lemma analyze_parsed source_code filename tree :
  ast_parse source_code filename = Ok tree →
  analyze_python_code_ast ast_parse source_code filename
  = try_except (run (visit tree)) parse_failure.
Proof.
  intros H. unfold analyze_python_code_ast, call, mbind, attempt_bind.
  rewrite H. cbn [app]. by destruct (run (visit tree)).
Qed.

Lemma analyze_not_parsed source_code filename e :
  ast_parse source_code filename = Raise e →
  analyze_python_code_ast ast_parse source_code filename
  = [(0, "AST parsing failed: " +:+ e, "⚠️")].
Proof.
  intros H. unfold analyze_python_code_ast, call, mbind, attempt_bind.
  by rewrite H.
Qed.


Lemma walk_prefix tree : (walk recursion_error tree).1 `prefix_of` oks (visit tree).
Proof.
  unfold walk. etrans; [apply interrupted_prefix|apply run_prefix].
Qed.

Lemma walk_Ok tree :
  (walk recursion_error tree).2 = Ok tt →
  (walk recursion_error tree).1 = oks (visit tree) ∧ raises (visit tree) = [].
Proof.
  unfold walk. intros H. pose proof (interrupted_Ok _ _ H) as E.
  rewrite E in H |- *. by apply run_Ok.
Qed.

(** The findings of one kind: those of the walk, in its order, as far as
    the walk got; all of them when it was not ended by an exception. *)
Lemma selected_findings (P : finding → Prop) `{!∀ f, Decision (P f)}
    source_code filename tree :
  ast_parse source_code filename = Ok tree →
  (∀ e, ¬ P (parse_failure e)) →
  filter P (analyze_python_code_ast_limited ast_parse recursion_error
              source_code filename)
    `prefix_of` filter P (oks (visit tree))
  ∧ ((walk recursion_error tree).2 = Ok tt →
     analyze_python_code_ast_limited ast_parse recursion_error
       source_code filename = oks (visit tree)).
Proof.
  intros Hparse HP. rewrite (analyze_limited_parsed _ _ _ Hparse). split.
  - rewrite filter_try_except by done. apply prefix_of_filter, walk_prefix.
  - intros Hw. rewrite try_except_findings, Hw, app_nil_r.
    by apply walk_Ok.
Qed.

End StructuralFacts.

(** Without a recursion error the limited analyzer is the analyzer. *)
Lemma analyze_not_limited
    (ast_parse : string → string → result module) source_code filename :
  analyze_python_code_ast_limited ast_parse None source_code filename
  = analyze_python_code_ast ast_parse source_code filename.
Proof. reflexivity. Qed.

Lemma too_long_check lineno name body :
  filter (fun f => reason f = TOO_LONG) (function_checks lineno name body)
  = if decide (50 < length body)%nat then [(lineno, name, TOO_LONG)] else [].
Proof.
  unfold function_checks. rewrite filter_app.
  destruct (4 <? _); rewrite ?filter_cons_False, ?filter_nil, ?app_nil_r by done;
    destruct (Z.ltb_spec 50 (Z.of_nat (length body)));
    rewrite ?filter_cons_True, ?filter_nil by done;
    case_decide; (done || lia).
Qed.

Lemma too_deep_check lineno name body :
  filter (fun f => reason f = TOO_DEEP) (function_checks lineno name body)
  = if decide (4 < nesting_depth body 1) then [(lineno, name, TOO_DEEP)] else [].
Proof.
  unfold function_checks. rewrite filter_app.
  destruct (50 <? _); rewrite ?filter_cons_False, ?filter_nil by done;
    cbn [app]; destruct (Z.ltb_spec 4 (nesting_depth body 1));
    rewrite ?filter_cons_True, ?filter_nil by done;
    case_decide; (done || lia).
Qed.

Lemma too_long_checks (l : list fundef) :
  flat_map (fun d => filter (fun f => reason f = TOO_LONG)
                       (function_checks (fd_lineno d) (fd_name d) (fd_body d))) l
  = too_long_finding <$> filter (fun d => (50 < length (fd_body d))%nat) l.
Proof.
  induction l as [|d l IH]; [done|]. cbn [flat_map]. rewrite IH, too_long_check.
  case_decide.
  - by rewrite filter_cons_True.
  - by rewrite filter_cons_False.
Qed.

Lemma too_deep_checks (l : list fundef) :
  flat_map (fun d => filter (fun f => reason f = TOO_DEEP)
                       (function_checks (fd_lineno d) (fd_name d) (fd_body d))) l
  = too_deep_finding <$> filter (fun d => 4 < nesting_depth (fd_body d) 1) l.
Proof.
  induction l as [|d l IH]; [done|]. cbn [flat_map]. rewrite IH, too_deep_check.
  case_decide.
  - by rewrite filter_cons_True.
  - by rewrite filter_cons_False.
Qed.

Lemma too_long_visit tree :
  filter (fun f => reason f = TOO_LONG) (oks (visit tree))
  = too_long_finding
      <$> filter (fun d => (50 < length (fd_body d))%nat) (function_defs tree).
Proof.
  rewrite filter_visit; [apply too_long_checks|].
  intros f [Hf|Hf] Hr; rewrite Hr in Hf; done.
Qed.

Lemma too_deep_visit tree :
  filter (fun f => reason f = TOO_DEEP) (oks (visit tree))
  = too_deep_finding
      <$> filter (fun d => 4 < nesting_depth (fd_body d) 1) (function_defs tree).
Proof.
  rewrite filter_visit; [apply too_deep_checks|].
  intros f [Hf|Hf] Hr; rewrite Hr in Hf; done.
Qed.


(** C3. For every input text on which [ast.parse] fails,
    [analyze_python_code_ast] returns a list of exactly one finding: its line
    is 0, its text is [AST parsing failed:] followed by the error, its label
    is the warning sign; no finding of the tree walk is in the list. *)
Theorem analyze_python_parse_failure
    (ast_parse : string → string → result module) source_code filename e :
  ast_parse source_code filename = Raise e →
  analyze_python_code_ast ast_parse source_code filename
  = [(0, "AST parsing failed: " +:+ e, "⚠️")]
  ∧ length (analyze_python_code_ast ast_parse source_code filename) = 1%nat
  ∧ ∀ f, f ∈ analyze_python_code_ast ast_parse source_code filename →
         f.1.1 = 0 ∧ Str.startswith "AST parsing failed" f.1.2 = true
         ∧ reason f ∉ [DEBUG_CALL; MAGIC_NUMBER; TOO_LONG; TOO_DEEP].
Proof.
  intros H. rewrite (analyze_not_parsed _ _ _ _ H).
  split; [done|]. split; [done|].
  intros f ->%list_elem_of_singleton. split; [done|]. split; [done|].
  set_unfold. intros Hr. repeat destruct Hr as [Hr|Hr]; done.
Qed.

Lemma analyze_python_parse_failure_witness :
  analyze_python_code_ast (fun _ _ => Raise "invalid syntax (a.py, line 1)")
    "def" "a.py"
  = [(0, "AST parsing failed: invalid syntax (a.py, line 1)", "⚠️")].
Proof.
  apply (analyze_python_parse_failure
           (fun _ _ => Raise "invalid syntax (a.py, line 1)") "def" "a.py"
           "invalid syntax (a.py, line 1)").
  reflexivity.
Defined.




(** C9. For the source text [print(1)], whose tree is one expression
    statement calling the name [print] on the constant 1,
    [analyze_python_code_ast] returns exactly two findings: the debug call of
    [print], then the magic number [1]. *)
Theorem analyze_print_1
    (ast_parse : string → string → result module) filename :
  ast_parse "print(1)" filename = Ok tree_print_1 →
  analyze_python_code_ast ast_parse "print(1)" filename
  = [(1, "print", "🐍 Python debug function call");
     (1, "1", "🔢 Use of magic number")].
Proof. intros H. rewrite (analyze_parsed _ _ _ _ H). vm_compute. reflexivity. Qed.

Lemma analyze_print_1_witness :
  analyze_python_code_ast (fun _ _ => Ok tree_print_1) "print(1)" "a.py"
  = [(1, "print", "🐍 Python debug function call");
     (1, "1", "🔢 Use of magic number")].
Proof.
  apply (analyze_print_1 (fun _ _ => Ok tree_print_1) "a.py"). reflexivity.
Defined.




(** The findings [Nesting too deep] are one for each [FunctionDef] node
    whose depth, as [nesting_depth] computes it from level 1, exceeds 4. *)
Lemma too_deep_findings
    (ast_parse : string → string → result module)
    (recursion_error : option (nat * string)) source_code filename tree :
  ast_parse source_code filename = Ok tree →
  filter (fun f => reason f = TOO_DEEP)
         (analyze_python_code_ast_limited ast_parse recursion_error
            source_code filename)
    `prefix_of` too_deep_finding
                  <$> filter (fun d => 4 < nesting_depth (fd_body d) 1)
                             (function_defs tree)
  ∧ ((walk recursion_error tree).2 = Ok tt →
     filter (fun f => reason f = TOO_DEEP)
            (analyze_python_code_ast_limited ast_parse recursion_error
               source_code filename)
     = too_deep_finding
         <$> filter (fun d => 4 < nesting_depth (fd_body d) 1)
                    (function_defs tree)).
Proof.
  intros H.
  destruct (selected_findings ast_parse recursion_error
              (fun f => reason f = TOO_DEEP) source_code filename tree H)
    as [Hp Hc]; [done|].
  rewrite too_deep_visit in Hp. split; [done|].
  intros Hw. by rewrite (Hc Hw), too_deep_visit.
Qed.

(** C4, the code at an input where it leaves the claim.  The function [f]
    of [tree_nested_in_else] nests [for], [while], [with] and [if] inside the
    [else] branch of an [if]: its depth as the claim defines it is 6, the
    depth [nesting_depth] computes is 2, since only the [body] of a statement
    is looked into, and the analyzer returns no finding. *)
Theorem nesting_in_else_not_flagged :
  claimed_depth body_nested_in_else = 6
  ∧ nesting_depth body_nested_in_else 1 = 2
  ∧ ∀ ast_parse source_code filename,
      ast_parse source_code filename = Ok tree_nested_in_else →
      analyze_python_code_ast ast_parse source_code filename = [].
Proof.
  split; [reflexivity|]. split; [reflexivity|].
  intros ast_parse source_code filename H.
  rewrite (analyze_parsed _ _ _ _ H). reflexivity.
Qed.

Lemma nesting_in_else_not_flagged_witness :
  analyze_python_code_ast (fun _ _ => Ok tree_nested_in_else) "def f(a): ..." "a.py"
  = [].
Proof.
  apply (proj2 (proj2 nesting_in_else_not_flagged)
           (fun _ _ => Ok tree_nested_in_else) "def f(a): ..." "a.py").
  reflexivity.
Defined.

Example dirname_examples :
  Path.dirname "/tmp/main.tf" = "/tmp" ∧ Path.dirname "main.tf" = ""
  ∧ Path.dirname "/main.tf" = "/" ∧ Path.dirname "//a" = "//"
  ∧ Path.dirname "a/b/" = "a/b" ∧ Path.dirname "a//b" = "a".
Proof. repeat split; reflexivity. Qed.

Example characters_example : Json.characters "a⚠b" = ["a"; "⚠"; "b"].
Proof. reflexivity. Qed.

Example endswith_examples :
  Str.endswith ".py" "src/a.py" = true ∧ Str.endswith ".py" "py" = false
  ∧ Str.endswith_any [".ts"; ".tsx"] "a.tsx" = true
  ∧ Str.endswith ".py" "a.PY" = false.
Proof. repeat split; reflexivity. Qed.

(** ** Loops that do not raise *)

Lemma for_each_appends_in {F A} (g : A → list F) (body : A → attempt F unit) xs :
  (∀ x, x ∈ xs → body x = (g x, Ok tt)) → for_each xs body = (flat_map g xs, Ok tt).
Proof.
  induction xs as [|x xs IH]; intros Hbody; [done|].
  cbn [for_each flat_map]. unfold mbind, attempt_bind.
  rewrite (Hbody x) by apply list_elem_of_here.
  rewrite IH; [done|]. intros y Hy. by apply Hbody, list_elem_of_further.
Qed.

Lemma for_each_appends {F A} (g : A → list F) (body : A → attempt F unit) xs :
  (∀ x, body x = (g x, Ok tt)) → for_each xs body = (flat_map g xs, Ok tt).
Proof. intros Hbody. apply for_each_appends_in. auto. Qed.

Lemma elem_of_enumerate {A} (xs : list A) : ∀ start i x,
  (i, x) ∈ enumerate start xs ↔ ∃ n, xs !! n = Some x ∧ i = start + Z.of_nat n.
Proof.
  induction xs as [|y xs IH]; intros start i x; cbn [enumerate].
  - split; [by intros ?%elem_of_nil|by intros (n & ? & _)].
  - rewrite elem_of_cons, IH. split.
    + intros [[= -> ->]|(n & Hn & ->)].
      * exists 0%nat. split; [done|lia].
      * exists (S n). split; [done|lia].
    + intros ([|n] & Hn & ->).
      * left. injection Hn as ->. f_equal. lia.
      * right. exists n. split; [done|lia].
Qed.

(** What the body of the inner loop appends for a numbered line and a
    check when the search returns. *)
Abbreviation hit := (fun (re_search : string → string → result bool)
                         (x : Z * string) (c : check) =>
  if decide (re_search (pattern c) x.2 = Ok true)
  then [((x.1, Str.strip x.2, message c) : finding)] else []).

Lemma matching_checks (re_search : string → string → result bool)
    (x : Z * string) checks :
  flat_map (hit re_search x) checks
  = pair_finding <$> filter (fun p => re_search (pattern p.2) p.1.2 = Ok true)
                            (map (fun c => (x, c)) checks).
Proof.
  induction checks as [|c checks IH]; [done|]. cbn [flat_map map]. rewrite IH.
  case_decide as E.
  - by rewrite filter_cons_True.
  - by rewrite filter_cons_False.
Qed.

Lemma matching_lines (re_search : string → string → result bool)
    (xs : list (Z * string)) checks :
  flat_map (fun x => flat_map (hit re_search x) checks) xs
  = pair_finding <$> filter (fun p => re_search (pattern p.2) p.1.2 = Ok true)
                            (list_prod xs checks).
Proof.
  induction xs as [|x xs IH]; [done|]. cbn [flat_map list_prod].
  by rewrite filter_app, fmap_app, IH, matching_checks.
Qed.

Lemma search_returns (re_search : string → string → result bool)
    (i : Z) (line : string) (c : check) found :
  re_search (pattern c) line = Ok found →
  (found ← call (re_search (pattern c) line);
   if found : bool then append (i, Str.strip line, message c) else mret tt)
  = (hit re_search (i, line) c, Ok tt).
Proof.
  intros E. unfold call, mbind, attempt_bind. cbn [fst snd]. rewrite E.
  destruct found; case_decide; done.
Qed.

Lemma text_findings_readable
    (readlines : string → result (list string))
    (re_search : string → string → result bool) file_path checks lines :
  readlines file_path = Ok lines →
  (∀ line c, line ∈ lines → c ∈ checks →
     ∃ found, re_search (pattern c) line = Ok found) →
  analyze_text_file_lines readlines re_search file_path checks
  = pair_finding <$> matching_pairs re_search lines checks.
Proof.
  intros Hread Hsearch. unfold analyze_text_file_lines, matching_pairs, call.
  rewrite Hread. rewrite <- matching_lines. unfold mbind at 1, attempt_bind at 1.
  rewrite (for_each_appends_in
             (fun x : Z * string => flat_map (hit re_search x) checks)).
  - reflexivity.
  - intros [i line] Hin. apply for_each_appends_in. intros c Hc.
    apply elem_of_enumerate in Hin as (n & Hn & _).
    destruct (Hsearch line c) as [found E]; [by eapply list_elem_of_lookup_2|done|].
    by apply search_returns with found.
Qed.

(** C6, the claim as it stands fails.  The file is read, its one line is
    [x], and the pattern of the one check is [(], which [re.search] rejects
    with [re.error]: no pattern matches a line, yet the result has a
    finding, of line 0 and with the label of a file that could not be
    read. *)
Lemma analyze_text_file_lines_findings_counterexample :
  analyze_text_file_lines (fun _ => Ok ["x"])
    (fun _ _ => Raise "missing ), unterminated subpattern at position 0")
    "/tmp/a.rs" [MkCheck "(" "unbalanced"]
  = [(0, "missing ), unterminated subpattern at position 0",
      "⚠️ File reading error")]
  ∧ analyze_text_file_lines (fun _ => Ok ["x"])
      (fun _ _ => Raise "missing ), unterminated subpattern at position 0")
      "/tmp/a.rs" [MkCheck "(" "unbalanced"]
    ≠ pair_finding
        <$> matching_pairs
              (fun _ _ => Raise "missing ), unterminated subpattern at position 0")
              ["x"] [MkCheck "(" "unbalanced"].
Proof. split; [reflexivity|]. vm_compute. discriminate. Qed.

(** C6, amended.  For a file that can be read and a list of checks on whose
    patterns [re.search] raises on no line of the file,
    [analyze_text_file_lines] returns exactly one finding for each pair of a
    line and a check whose pattern matches the line: the pairs are taken
    line by line from line 1, and for one line check by check in the order
    of the list, every check being tried whatever the others gave.  For a
    file that cannot be read it returns exactly one finding, of line 0, with
    the error. *)
Theorem analyze_text_file_lines_findings
    (readlines : string → result (list string))
    (re_search : string → string → result bool) file_path checks :
  (∀ lines, readlines file_path = Ok lines →
     (∀ line c, line ∈ lines → c ∈ checks →
        ∃ found, re_search (pattern c) line = Ok found) →
     analyze_text_file_lines readlines re_search file_path checks
     = pair_finding <$> matching_pairs re_search lines checks)
  ∧ (∀ e, readlines file_path = Raise e →
       analyze_text_file_lines readlines re_search file_path checks
       = [(0, e, "⚠️ File reading error")]).
Proof.
  split.
  - intros lines Hread Hsearch. by apply text_findings_readable.
  - intros e Hread. unfold analyze_text_file_lines. by rewrite Hread.
Qed.

Lemma analyze_text_file_lines_findings_witness :
  analyze_text_file_lines (fun _ => Ok ["  dbg!(1);"; "ok"])
    (fun p line => Ok (Str.contains p line)) "/tmp/a.rs"
    [MkCheck "dbg!" "debug"; MkCheck "1" "number"; MkCheck "ok" "fine"]
  = [(1, "dbg!(1);", "debug"); (1, "dbg!(1);", "number"); (2, "ok", "fine")].
Proof.
  refine (eq_trans
            (proj1 (analyze_text_file_lines_findings
                      (fun _ => Ok ["  dbg!(1);"; "ok"])
                      (fun p line => Ok (Str.contains p line)) "/tmp/a.rs"
                      [MkCheck "dbg!" "debug"; MkCheck "1" "number";
                       MkCheck "ok" "fine"])
                   ["  dbg!(1);"; "ok"] eq_refl _) _).
  - intros line c _ _. eexists. reflexivity.
  - vm_compute. reflexivity.
Defined.

(** ** The external tools *)

Section ExternalFacts.

Variable run : list string → option string → result completed.
Variable json_loads : string → result json.
Variable not_iterable : json → string.
Variable bad_subscript : json → string → string.

Lemma go_not_run file_path e :
  run ["go"; "vet"; file_path] None = Raise e →
  analyze_go_code run file_path = [(0, e, "⚠️ Go parsing failed")].
Proof. intros H. unfold analyze_go_code, call. by rewrite H. Qed.

Lemma ts_not_run file_path e :
  run ["node"; "analyze_ts_ast.js"; file_path] None = Raise e →
  analyze_ts_code run json_loads not_iterable bad_subscript file_path
  = [(JInt 0, JStr e, JStr "⚠️ TypeScript parsing failed")].
Proof. intros H. unfold analyze_ts_code, call. by rewrite H. Qed.

Lemma terraform_fmt_not_run file_path e :
  run ["terraform"; "fmt"; "-check"; file_path] None = Raise e →
  analyze_terraform run file_path = [(0, e, "⚠️ Terraform parsing failed")].
Proof. intros H. unfold analyze_terraform, call. by rewrite H. Qed.

Lemma terraform_validate_not_run file_path fmt_result e :
  run ["terraform"; "fmt"; "-check"; file_path] None = Ok fmt_result →
  run ["terraform"; "validate"] (Some (Path.dirname file_path)) = Raise e →
  analyze_terraform run file_path
  = (if decide (returncode fmt_result ≠ 0)
     then [(0, "Terraform fmt check failed", "🧹 Format mismatch")] else [])
    ++ [(0, e, "⚠️ Terraform parsing failed")].
Proof.
  intros H1 H2. unfold analyze_terraform, call. rewrite H1.
  unfold mbind at 1, attempt_bind at 1.
  case_decide; unfold append, mret, attempt_ret, mbind, attempt_bind;
    by rewrite H2.
Qed.

Lemma ruby_not_run file_path e :
  run ["ruby"; "-c"; file_path] None = Raise e →
  analyze_ruby_code run file_path = [(0, e, "⚠️ Ruby parsing failed")].
Proof. intros H. unfold analyze_ruby_code, call. by rewrite H. Qed.

Lemma ruby_which_not_run file_path syntax e :
  run ["ruby"; "-c"; file_path] None = Ok syntax →
  run ["which"; "rubocop"] None = Raise e →
  analyze_ruby_code run file_path
  = (if Str.contains "Syntax OK" (stdout syntax) then []
     else [(0, Str.strip (stdout syntax), "🛠️ Ruby syntax error")])
    ++ [(0, e, "⚠️ Ruby parsing failed")].
Proof.
  intros H1 H2. unfold analyze_ruby_code, call. rewrite H1.
  unfold mbind at 1, attempt_bind at 1.
  destruct (Str.contains "Syntax OK" (stdout syntax));
    unfold append, mret, attempt_ret, mbind, attempt_bind; by rewrite H2.
Qed.

Lemma ruby_rubocop_not_run file_path syntax which e :
  run ["ruby"; "-c"; file_path] None = Ok syntax →
  run ["which"; "rubocop"] None = Ok which → returncode which = 0 →
  run ["rubocop"; "--format"; "simple"; file_path] None = Raise e →
  analyze_ruby_code run file_path
  = (if Str.contains "Syntax OK" (stdout syntax) then []
     else [(0, Str.strip (stdout syntax), "🛠️ Ruby syntax error")])
    ++ [(0, e, "⚠️ Ruby parsing failed")].
Proof.
  intros H1 H2 Hrc H3. unfold analyze_ruby_code, call. rewrite H1.
  unfold mbind at 1, attempt_bind at 1.
  destruct (Str.contains "Syntax OK" (stdout syntax));
    unfold append, mret, attempt_ret, mbind, attempt_bind;
    rewrite H2; rewrite decide_True by done; by rewrite H3.
Qed.

End ExternalFacts.

(** C7. In each analyzer that runs an external tool, a failure to run the
    binary is caught: for every file path the analyzer returns a list of
    findings that ends with one diagnostic finding of line 0 whose text is
    the error.  When the first run of the analyzer fails the list is that
    finding alone; when a later run fails ([terraform validate], [which
    rubocop], [rubocop]) it follows the finding already made from the
    earlier run, if there is one.  The analyzers are functions to lists of
    findings: no failure leaves them. *)
Theorem external_tool_failure_is_a_finding
    (run : list string → option string → result completed)
    (json_loads : string → result json)
    (not_iterable : json → string) (bad_subscript : json → string → string)
    (file_path e : string) :
  (run ["go"; "vet"; file_path] None = Raise e →
     analyze_go_code run file_path = [(0, e, "⚠️ Go parsing failed")])
  ∧ (run ["node"; "analyze_ts_ast.js"; file_path] None = Raise e →
     analyze_ts_code run json_loads not_iterable bad_subscript file_path
     = [(JInt 0, JStr e, JStr "⚠️ TypeScript parsing failed")])
  ∧ (run ["terraform"; "fmt"; "-check"; file_path] None = Raise e →
     analyze_terraform run file_path = [(0, e, "⚠️ Terraform parsing failed")])
  ∧ (∀ fmt_result,
       run ["terraform"; "fmt"; "-check"; file_path] None = Ok fmt_result →
       run ["terraform"; "validate"] (Some (Path.dirname file_path)) = Raise e →
       analyze_terraform run file_path
       = (if decide (returncode fmt_result ≠ 0)
          then [(0, "Terraform fmt check failed", "🧹 Format mismatch")] else [])
         ++ [(0, e, "⚠️ Terraform parsing failed")])
  ∧ (run ["ruby"; "-c"; file_path] None = Raise e →
     analyze_ruby_code run file_path = [(0, e, "⚠️ Ruby parsing failed")])
  ∧ (∀ syntax,
       run ["ruby"; "-c"; file_path] None = Ok syntax →
       run ["which"; "rubocop"] None = Raise e
       ∨ (∃ which, run ["which"; "rubocop"] None = Ok which
                   ∧ returncode which = 0
                   ∧ run ["rubocop"; "--format"; "simple"; file_path] None
                     = Raise e) →
       analyze_ruby_code run file_path
       = (if Str.contains "Syntax OK" (stdout syntax) then []
          else [(0, Str.strip (stdout syntax), "🛠️ Ruby syntax error")])
         ++ [(0, e, "⚠️ Ruby parsing failed")]).
Proof.
  split; [apply go_not_run|]. split; [apply ts_not_run|].
  split; [apply terraform_fmt_not_run|].
  split; [intros fmt_result; apply terraform_validate_not_run|].
  split; [apply ruby_not_run|].
  intros syntax H1 [H2|(which & H2 & Hrc & H3)].
  - by apply ruby_which_not_run.
  - by eapply ruby_rubocop_not_run.
Qed.

Lemma external_tool_failure_is_a_finding_witness :
  analyze_go_code (fun _ _ => Raise "[Errno 2] No such file or directory: 'go'")
    "/tmp/main.go"
  = [(0, "[Errno 2] No such file or directory: 'go'", "⚠️ Go parsing failed")]
  ∧ analyze_terraform
      (fun argv _ =>
         if decide (argv = ["terraform"; "validate"]) then Raise "not a directory"
         else Ok (Completed 3 "" ""))
      "main.tf"
    = [(0, "Terraform fmt check failed", "🧹 Format mismatch");
       (0, "not a directory", "⚠️ Terraform parsing failed")].
Proof.
  split.
  - apply (external_tool_failure_is_a_finding
             (fun _ _ => Raise "[Errno 2] No such file or directory: 'go'")
             (fun _ => Raise "") (fun _ => "") (fun _ _ => "") "/tmp/main.go").
    reflexivity.
  - destruct (external_tool_failure_is_a_finding
                (fun argv _ =>
                   if decide (argv = ["terraform"; "validate"])
                   then Raise "not a directory" else Ok (Completed 3 "" ""))
                (fun _ => Raise "") (fun _ => "") (fun _ _ => "")
                "main.tf" "not a directory") as (_ & _ & _ & H & _).
    apply (H (Completed 3 "" "")); reflexivity.
Defined.

(** ** The router *)

(** C8. For a file whose name ends with none of the recognized extensions
    the chain of [review_pr] adds no finding: the routing step gives the
    empty list, whatever the parser, the file system and the tools would
    do. *)
Theorem route_unrecognized_extension
    (ast_parse : string → string → result module)
    (readlines : string → result (list string))
    (re_search : string → string → result bool)
    (run : list string → option string → result completed)
    (json_loads : string → result json)
    (not_iterable : json → string) (bad_subscript : json → string → string)
    (filename added_code file_path : string) :
  (∀ ext, ext ∈ recognized_extensions → Str.endswith ext filename = false) →
  route ast_parse readlines re_search run json_loads not_iterable bad_subscript
        filename added_code file_path = [].
Proof.
  intros H. unfold route, Str.endswith_any. cbn [existsb].
  rewrite !H by (unfold recognized_extensions; set_solver).
  reflexivity.
Qed.

Lemma route_unrecognized_extension_witness :
  route (fun _ _ => Raise "") (fun _ => Raise "") (fun _ _ => Ok true)
        (fun _ _ => Raise "") (fun _ => Raise "") (fun _ => "") (fun _ _ => "")
        "docs/README.md" "print(1)" "/tmp/README.md" = [].
Proof.
  apply route_unrecognized_extension.
  intros ext Hext. unfold recognized_extensions in Hext.
  repeat (apply elem_of_cons in Hext as [->|Hext]; [reflexivity|]).
  by apply elem_of_nil in Hext.
Defined.

(** ** The nesting depth *)

Lemma claimed_depth_pos body : 1 ≤ claimed_depth body.
Proof. unfold claimed_depth. induction body; simpl; lia. Qed.

Lemma claimed_depth_cons s body :
  claimed_depth (s :: body) = Z.max (claimed_depth_stmt s) (claimed_depth body).
Proof. reflexivity. Qed.

Lemma loop_bounds body :
  Forall step_bounds body →
  ∀ level m, level ≤ m →
    m ≤ fold_left (nesting_depth_step level) body m
    ∧ fold_left (nesting_depth_step level) body m
      ≤ Z.max m (level - 1 + claimed_depth body)
    ∧ (forallb body_only body = true →
       fold_left (nesting_depth_step level) body m
       = Z.max m (level - 1 + claimed_depth body)).
Proof.
  induction 1 as [|s body Hs _ IH]; intros level m Hm.
  - cbn [fold_left forallb]. unfold claimed_depth. cbn [fold_right]. lia.
  - cbn [fold_left forallb]. rewrite claimed_depth_cons.
    destruct (Hs level m Hm) as (H1 & H2 & H3).
    destruct (IH level (nesting_depth_step level m s) ltac:(lia)) as (I1 & I2 & I3).
    split; [lia|]. split; [lia|].
    intros [Hb1 Hb2]%andb_prop. rewrite (I3 Hb2), (H3 Hb1). lia.
Qed.

Lemma body_bounds body level :
  Forall step_bounds body →
  nesting_depth body (level + 1) ≤ level + claimed_depth body
  ∧ (forallb body_only body = true →
     nesting_depth body (level + 1) = level + claimed_depth body).
Proof.
  intros H. unfold nesting_depth.
  destruct (loop_bounds body H (level + 1) (level + 1) ltac:(lia)) as (H1 & H2 & H3).
  pose proof (claimed_depth_pos body).
  split; [lia|]. intros Hb. rewrite (H3 Hb). lia.
Qed.

Lemma step_bounds_all s : step_bounds s.
Proof.
  induction s as [? ? ? body ? ? Hb|? ? ? body ? ? Hb|? ? ? body ? Hb
                 |? ? body orelse Hb Ho|? body orelse Hb Ho|? body orelse Hb Ho
                 |? body Hb|body handlers orelse finalbody Hb Hh Ho Hf
                 |? cases Hc|?|?] using stmt_nested_ind;
    intros level m Hm; cbn [nesting_depth_step claimed_depth_stmt body_only];
    repeat match goal with
      | |- context [fold_right (fun s d => Z.max (claimed_depth_stmt s) d) 1 ?b] =>
          change (fold_right (fun s d => Z.max (claimed_depth_stmt s) d) 1 b)
            with (claimed_depth b)
      end;
    try change (fold_left (nesting_depth_step (level + 1)) body (level + 1))
      with (nesting_depth body (level + 1));
    try (destruct (body_bounds body level Hb) as [B1 B2]);
    try pose proof (claimed_depth_pos body).
  1-3, 7: (split; [lia|]; split; [lia|]; intros E; rewrite (B2 E); lia).
  1-3: (pose proof (claimed_depth_pos orelse);
        split; [lia|]; split; [lia|];
        intros [E1 E2%bool_decide_eq_true]%andb_prop; subst orelse;
        rewrite (B2 E1); change (claimed_depth []) with 1; lia).
  - (* Try *)
    pose proof (claimed_depth_pos orelse). pose proof (claimed_depth_pos finalbody).
    split; [lia|]. split.
    + assert (1 ≤ fold_right
                (fun h d => Z.max (match h with
                                   | ExceptHandler _ b => claimed_depth b end) d)
                1 handlers) by (clear; induction handlers; simpl; lia).
      lia.
    + intros [[[E1 E2%bool_decide_eq_true]%andb_prop E3%bool_decide_eq_true]%andb_prop
               E4%bool_decide_eq_true]%andb_prop.
      subst. rewrite (B2 E1). change (claimed_depth []) with 1.
      cbn [fold_right]. lia.
  - (* Match *)
    split; [lia|]. split; [|done].
    assert (1 ≤ fold_right
              (fun c d => Z.max (match c with
                                 | MatchCase _ b => claimed_depth b end) d)
              1 cases) by (clear; induction cases; simpl; lia).
    lia.
  - split; [lia|]. split; [lia|]. intros _. lia.
  - split; [lia|]. split; [lia|]. intros _. lia.
Qed.

(** The depth the code computes never exceeds the depth of the claim, and is
    that depth when no statement has an [else], a handler, a [finally] or a
    [match]. *)
Lemma nesting_depth_claimed body :
  nesting_depth body 1 ≤ claimed_depth body
  ∧ (forallb body_only body = true → nesting_depth body 1 = claimed_depth body).
Proof.
  destruct (body_bounds body 0 (Forall_all _ _ step_bounds_all)) as [H1 H2].
  change (0 + 1) with 1 in *. split; [lia|]. intros E. rewrite (H2 E). lia.
Qed.

(** * Further properties of the code *)

(** ** Strings *)

Lemma append_assoc (a b c : string) : (a +:+ b) +:+ c = a +:+ b +:+ c.
Proof.
  induction a as [|x a IH]; [done|].
  change (String x ((a +:+ b) +:+ c) = String x (a +:+ b +:+ c)). by rewrite IH.
Qed.

Lemma append_nil_r (a : string) : a +:+ "" = a.
Proof.
  induction a as [|x a IH]; [done|].
  change (String x (a +:+ "") = String x a). by rewrite IH.
Qed.

Lemma append_cons (x : ascii) (a b : string) :
  String x a +:+ b = String x (a +:+ b).
Proof. reflexivity. Qed.

Lemma rev_app_append (s acc : string) :
  String.rev_app s acc = String.rev s +:+ acc.
Proof.
  revert acc. induction s as [|x s IH]; intros acc; [done|].
  change (String.rev_app (String x s) acc) with (String.rev_app s (String x acc)).
  change (String.rev (String x s)) with (String.rev_app s (String x "")).
  rewrite (IH (String x acc)), (IH (String x "")), append_assoc. done.
Qed.

Lemma rev_cons (x : ascii) (s : string) :
  String.rev (String x s) = String.rev s +:+ String x "".
Proof. unfold String.rev at 1. simpl. apply rev_app_append. Qed.

Lemma rev_append (a b : string) :
  String.rev (a +:+ b) = String.rev b +:+ String.rev a.
Proof.
  induction a as [|x a IH].
  - change (String.rev b = String.rev b +:+ ""). by rewrite append_nil_r.
  - by rewrite append_cons, !rev_cons, IH, append_assoc.
Qed.

Lemma rev_involutive (s : string) : String.rev (String.rev s) = s.
Proof.
  induction s as [|x s IH]; [done|].
  by rewrite rev_cons, rev_append, IH.
Qed.

Lemma startswith_spec (p s : string) :
  Str.startswith p s = true ↔ ∃ r, s = p +:+ r.
Proof.
  revert s. induction p as [|a p IH]; intros s.
  - split; [by exists s|done].
  - destruct s as [|b s]; [split; [done|by intros [? ?]]|].
    cbn [Str.startswith]. rewrite andb_true_iff, IH. split.
    + intros [->%Ascii.eqb_eq [r ->]]. by exists r.
    + intros [r Hr]. rewrite append_cons in Hr. injection Hr as -> ->.
      split; [apply Ascii.eqb_refl|by exists r].
Qed.

Lemma endswith_spec (suffix s : string) :
  Str.endswith suffix s = true ↔ ∃ r, s = r +:+ suffix.
Proof.
  unfold Str.endswith. rewrite startswith_spec. split.
  - intros [r Hr]. exists (String.rev r).
    by rewrite <- (rev_involutive s), Hr, rev_append, rev_involutive.
  - intros [r ->]. exists (String.rev r). by rewrite rev_append.
Qed.

(** Two prefixes of one string: one is a prefix of the other. *)
Lemma startswith_comparable (p q s : string) :
  Str.startswith p s = true → Str.startswith q s = true →
  Str.startswith p q = true ∨ Str.startswith q p = true.
Proof.
  revert q s. induction p as [|a p IH]; intros q s; [by left|].
  destruct q as [|b q]; [by right|].
  destruct s as [|c s]; [done|]. cbn [Str.startswith].
  rewrite !andb_true_iff.
  intros [->%Ascii.eqb_eq Hp] [->%Ascii.eqb_eq Hq].
  rewrite Ascii.eqb_refl. destruct (IH q s Hp Hq); auto.
Qed.

(** A name cannot end with two extensions of which none ends with the
    other. *)
Lemma endswith_exclusive (e1 e2 s : string) :
  Str.endswith e1 e2 = false → Str.endswith e2 e1 = false →
  Str.endswith e1 s = true → Str.endswith e2 s = false.
Proof.
  unfold Str.endswith. intros H1 H2 Hs.
  destruct (Str.startswith (String.rev e2) (String.rev s)) eqn:E; [|done].
  destruct (startswith_comparable _ _ _ Hs E); congruence.
Qed.

Lemma after_last_free sep s : ∀ cur,
  free_of sep s = true → after_last sep s cur = cur +:+ s.
Proof.
  induction s as [|a s IH]; intros cur H; cbn [after_last free_of] in *.
  - by rewrite append_nil_r.
  - apply andb_prop in H as [Ha Hs]. apply negb_true_iff in Ha.
    by rewrite Ha, IH, append_assoc.
Qed.

Lemma after_last_append sep d s : ∀ cur,
  free_of sep s = true →
  after_last sep (d +:+ String sep s) cur = s.
Proof.
  induction d as [|a d IH]; intros cur H.
  - change ("" +:+ String sep s) with (String sep s). cbn [after_last].
    by rewrite Ascii.eqb_refl, after_last_free.
  - rewrite append_cons. cbn [after_last]. destruct (Ascii.eqb a sep); by rewrite IH.
Qed.

(** ** More on the change reconciler *)

Lemma scan_commits_raise fetch before c after e : ∀ st,
  Forall (fetched fetch) before → fetch (sha c) = Raise e →
  scan_commits fetch (before ++ c :: after) st = Raise e.
Proof.
  induction before as [|b before IH]; intros st Hall Hc; simpl.
  - by rewrite Hc.
  - inversion Hall as [|? ? [files Hb] Hall']; subst. rewrite Hb. by apply IH.
Qed.

(** X1. When the host fails for a commit and has answered for the commits
    before it, [track_add_delete_lines] ends with that error: no map is
    returned, whatever the commits before and after it hold. *)
Theorem fetch_failure_propagates
    (fetch : string → result (list file)) before c after e :
  Forall (fetched fetch) before → fetch (sha c) = Raise e →
  track_add_delete_lines fetch (before ++ c :: after) = Raise e.
Proof.
  intros Hall Hc. unfold track_add_delete_lines.
  by rewrite (scan_commits_raise fetch before c after e no_lines Hall Hc).
Qed.

Lemma fetch_failure_propagates_witness :
  track_add_delete_lines
    (fun sha => if decide (sha = "c1") then Raise "404 Client Error"
                else Ok [File "a.py" (Some patch_x)])
    [Commit "c0"; Commit "c1"; Commit "c2"]
  = Raise "404 Client Error".
Proof.
  apply (fetch_failure_propagates _ [Commit "c0"] (Commit "c1") [Commit "c2"]).
  - repeat constructor. by eexists.
  - reflexivity.
Defined.

Lemma changed_files_app fetch l1 l2 :
  changed_files fetch (l1 ++ l2) = changed_files fetch l1 ++ changed_files fetch l2.
Proof. unfold changed_files. apply flat_map_app. Qed.

(** X2. Commits added to a change request never take a line out of the
    result: every file of the result for [commits] is in the result for
    [commits ++ more], with a set that contains the former one. *)
Theorem cancelled_lines_grow
    (fetch : string → result (list file)) commits more m m' :
  track_add_delete_lines fetch commits = Ok m →
  track_add_delete_lines fetch (commits ++ more) = Ok m' →
  ∀ name s, m !! name = Some s → ∃ s', m' !! name = Some s' ∧ s ⊆ s'.
Proof.
  intros Hm Hm' name s. rewrite (track_lookup _ _ _ name Hm),
    (track_lookup _ _ _ name Hm').
  assert (cancelled fetch commits name ⊆ cancelled fetch (commits ++ more) name)
    as Hsub.
  { unfold cancelled.
    rewrite changed_files_app, Added_union_app, Removed_union_app. set_solver. }
  case_decide as He; [done|]. intros [= <-].
  rewrite decide_False by set_solver. eauto.
Qed.

Lemma cancelled_lines_grow_witness :
  ∃ s', ({[ "a.py" := {[ "x = 1" ]} ]} : gmap string (gset string)) !! "a.py"
        = Some s' ∧ ({[ "x = 1" ]} : gset string) ⊆ s'.
Proof.
  apply (cancelled_lines_grow (fun _ => Ok [File "a.py" (Some patch_x)])
           [Commit "c0"] [Commit "c1"]
           {[ "a.py" := {[ "x = 1" ]} ]} {[ "a.py" := {[ "x = 1" ]} ]}).
  - vm_compute. reflexivity.
  - vm_compute. reflexivity.
  - vm_compute. reflexivity.
Defined.

(** Case analysis on the tests of [Str.linebreak]. *)
Ltac break_conditions :=
  repeat match goal with
  | |- context [(Str.code ?x =? ?n)%nat] =>
      destruct (Str.code x =? n)%nat eqn:?; cbn [andb orb]
  end.

Lemma linebreak_cut (suf rest rest' : string) :
  suf ≠ "" → ends_line rest' → Str.linebreak (suf +:+ rest) = 0%nat →
  Str.linebreak (suf +:+ rest') = 0%nat.
Proof.
  intros Hne Hrest'.
  destruct suf as [|a [|b [|c s]]]; [done|..];
    [destruct rest as [|x [|y r]]|destruct rest as [|x r]|];
    destruct Hrest' as [->|[t ->]];
    cbv [String.append]; unfold Str.linebreak;
    change (Str.code (Str.byte 10)) with 10%nat;
    set (single := ((10 <=? Str.code a) && (Str.code a <=? 12)
                    || (28 <=? Str.code a) && (Str.code a <=? 30))%nat);
    destruct single; break_conditions; try done.
  all: intros _; destruct t; reflexivity.
Qed.

Lemma clean_nil : clean "".
Proof.
  intros pre suf rest E Hne _. destruct pre; [|done]. by destruct suf.
Qed.

Lemma clean_tail a l : clean (String a l) → clean l.
Proof.
  intros H pre suf rest -> Hne Hrest.
  by apply (H (String a pre) suf rest).
Qed.

Lemma clean_head a l rest :
  clean (String a l) → ends_line rest →
  Str.linebreak (String a (l +:+ rest)) = 0%nat.
Proof. intros H Hrest. by apply (H "" (String a l) rest). Qed.

Lemma clean_drop1 l : clean l → clean (Str.drop1 l).
Proof. destruct l as [|a l]; [done|]. apply clean_tail. Qed.

(** A clean line followed by a line feed is read as that line. *)
Lemma splitlines_from_line l : ∀ cur t,
  clean l →
  Str.splitlines_from (l +:+ String (Str.byte 10) t) 0 cur
  = (cur +:+ l) :: Str.splitlines_from t 0 "".
Proof.
  induction l as [|a l IH]; intros cur t Hl.
  - by rewrite append_nil_r.
  - rewrite append_cons. cbn [Str.splitlines_from].
    rewrite (clean_head a l (String (Str.byte 10) t) Hl) by (right; eauto).
    rewrite IH by by eapply clean_tail.
    by rewrite append_assoc.
Qed.

(** A clean line at the end of the text is read as that line, unless it is
    empty. *)
Lemma splitlines_from_last l : ∀ cur,
  clean l →
  Str.splitlines_from l 0 cur
  = if decide (cur +:+ l = "") then [] else [cur +:+ l].
Proof.
  induction l as [|a l IH]; intros cur Hl.
  - by rewrite append_nil_r.
  - cbn [Str.splitlines_from].
    pose proof (clean_head a l "" Hl ltac:(by left)) as E.
    rewrite append_nil_r in E. rewrite E.
    rewrite IH by by eapply clean_tail.
    by rewrite append_assoc.
Qed.

Lemma splitlines_join lines :
  Forall clean lines →
  Str.splitlines (join Str.LF lines) = without_last_empty lines.
Proof.
  unfold Str.splitlines.
  induction 1 as [|l lines Hl Hlines IH]; [done|].
  destruct lines as [|l' lines].
  - cbn [join without_last_empty]. by rewrite splitlines_from_last.
  - change (join Str.LF (l :: l' :: lines))
      with (l +:+ String (Str.byte 10) (join Str.LF (l' :: lines))).
    rewrite splitlines_from_line by done. by rewrite IH.
Qed.

Lemma append_snoc_inv pre : ∀ cur suf a,
  cur +:+ String a "" = pre +:+ suf → suf ≠ "" →
  ∃ suf0, suf = suf0 +:+ String a "" ∧ cur = pre +:+ suf0.
Proof.
  induction pre as [|x pre IH]; intros cur suf a E Hne.
  - exists cur. by split.
  - destruct cur as [|y cur].
    + injection E as -> E. destruct pre; [|done]. by destruct suf.
    + injection E as -> E. destruct (IH cur suf a E Hne) as (suf0 & -> & ->).
      by exists suf0.
Qed.

Lemma clean_before_clean cur s : clean_before cur s → clean cur.
Proof.
  intros H pre suf rest E Hne Hrest.
  by apply (linebreak_cut suf s rest Hne Hrest), (H pre).
Qed.

Lemma clean_before_nil s : clean_before "" s.
Proof. intros pre suf E Hne. destruct pre; [|done]. by destruct suf. Qed.

(** The lines [splitlines] gives have no line boundary inside. *)
Lemma splitlines_from_clean s : ∀ skip cur,
  (skip = 0%nat → clean_before cur s) → (skip ≠ 0%nat → cur = "") →
  Forall clean (Str.splitlines_from s skip cur).
Proof.
  induction s as [|a r IH]; intros skip cur H0 H1; cbn [Str.splitlines_from].
  - case_decide as Hcur; [constructor|]. constructor; [|constructor].
    destruct skip; [|by rewrite H1 in Hcur]. by eapply clean_before_clean, H0.
  - destruct skip as [|k].
    + specialize (H0 eq_refl).
      destruct (Str.linebreak (String a r)) as [|k] eqn:E.
      * apply IH; [|done]. intros _ pre suf Ecur Hne.
        destruct (append_snoc_inv pre cur suf a Ecur Hne) as (suf0 & -> & ->).
        rewrite append_assoc. change (String a "" +:+ r) with (String a r).
        destruct suf0 as [|b suf0]; [done|]. by apply (H0 pre).
      * constructor; [by eapply clean_before_clean|].
        apply IH; [|done]. intros _. apply clean_before_nil.
    + rewrite H1 by done. apply IH; [|done]. intros _. apply clean_before_nil.
Qed.

Lemma splitlines_clean s : Forall clean (Str.splitlines s).
Proof.
  apply splitlines_from_clean; [|done]. intros _. apply clean_before_nil.
Qed.

Lemma added_code_lines_clean p : Forall clean (added_code_lines p).
Proof.
  unfold added_code_lines. apply Forall_fmap.
  eapply Forall_impl with (P := clean).
  - apply Forall_forall. intros l [_ Hl]%list_elem_of_filter.
    by apply (proj1 (Forall_forall _ _) (splitlines_clean p)).
  - intros l. apply clean_drop1.
Qed.

Lemma without_last_empty_sub lines x :
  x ∈ without_last_empty lines → x ∈ lines.
Proof.
  induction lines as [|l [|l' lines] IH]; cbn [without_last_empty]; [done| |].
  - case_decide; [by intros ?%elem_of_nil|done].
  - intros [->|Hx]%elem_of_cons; [left|right; by apply IH].
Qed.

Lemma without_last_empty_elem lines x :
  x ∈ lines → x ≠ "" → x ∈ without_last_empty lines.
Proof.
  intros Hx Hne.
  induction lines as [|l [|l' lines] IH]; cbn [without_last_empty]; [done| |].
  - apply list_elem_of_singleton in Hx as ->. rewrite decide_False by done.
    apply list_elem_of_here.
  - apply elem_of_cons in Hx as [->|Hx]; [left|right; by apply IH].
Qed.

Lemma Added_added_code_lines (p : string) :
  Added (Some p) = list_to_set (Str.strip <$> added_code_lines p).
Proof.
  apply set_eq. intros x.
  rewrite elem_of_Added, elem_of_list_to_set, list_elem_of_fmap.
  unfold contributes, added_code_lines, plus_line. cbn [patch]. split.
  - intros (p' & line & [= <-] & Hin & Hplus & ->).
    exists (Str.drop1 line). split; [done|].
    apply list_elem_of_fmap. exists line. split; [done|].
    by apply list_elem_of_filter.
  - intros (l & -> & Hl). apply list_elem_of_fmap in Hl as (line & -> & Hline).
    apply list_elem_of_filter in Hline as [Hplus Hin]. by exists p, line.
Qed.

(** X3. The added code handed to the analyzers and the Added set of the
    reconciler come from the same lines of the patch.  The lines of
    [added_code] are the added lines of the patch without their [+], except
    that a last added line that is empty is lost in the join; so, the empty
    string apart, the Added set is the set of the lines of [added_code],
    each one trimmed.  For the patch of the two added lines [a] and the
    empty line, the Added set holds the empty string and the added code is
    the single line [a]. *)
Theorem added_code_Added (p : string) :
  Str.splitlines (added_code p) = without_last_empty (added_code_lines p)
  ∧ Added (Some p) ∖ {[""]}
    = list_to_set (Str.strip <$> Str.splitlines (added_code p)) ∖ {[""]}
  ∧ (Added (Some patch_a_empty) = {["a"; ""]}
     ∧ added_code patch_a_empty = "a" +:+ Str.LF
     ∧ Str.splitlines (added_code patch_a_empty) = ["a"]).
Proof.
  assert (Str.splitlines (added_code p) = without_last_empty (added_code_lines p))
    as Hlines by apply splitlines_join, added_code_lines_clean.
  split; [done|]. split.
  - rewrite Hlines, Added_added_code_lines. apply set_eq. intros x.
    rewrite !elem_of_difference, !elem_of_list_to_set, !list_elem_of_fmap.
    split.
    + intros [(l & -> & Hl) Hne]. split; [|done]. exists l. split; [done|].
      apply without_last_empty_elem; [done|]. intros ->. by apply Hne, elem_of_singleton.
    + intros [(l & -> & Hl) Hne]. split; [|done]. exists l. split; [done|].
      by apply without_last_empty_sub.
  - split; [|split]; vm_compute; reflexivity.
Qed.

(** ** The temporary file of the per-file step *)

Lemma free_of_append c a b :
  free_of c (a +:+ b) = free_of c a && free_of c b.
Proof.
  induction a as [|x a IH]; [done|].
  rewrite append_cons. cbn [free_of]. by rewrite IH, andb_assoc.
Qed.

Lemma free_of_rev c s : free_of c (String.rev s) = free_of c s.
Proof.
  induction s as [|x s IH]; [done|].
  rewrite rev_cons, free_of_append, IH. cbn [free_of].
  by rewrite andb_true_r, andb_comm.
Qed.

Lemma head_rev_skip r t :
  free_of "/" r = true → Path.head_rev (r +:+ String "/" t) = String "/" t.
Proof.
  induction r as [|x r IH]; intros H.
  - reflexivity.
  - cbn [free_of] in H. apply andb_prop in H as [Hx Hr].
    apply negb_true_iff in Hx. rewrite append_cons. cbn [Path.head_rev].
    rewrite Hx. by apply IH.
Qed.

(** X4. The temporary file of a changed file is named after the last
    component of its name only: a file [name] in any directory [dir] is
    written to [/tmp/name], so files of the same name in two directories
    share one temporary file; and the directory of that path, where
    [terraform validate] is run, is [/tmp]. *)
Theorem file_path_of_last_component (dir name : string) :
  free_of "/" name = true →
  file_path_of (dir +:+ "/" +:+ name) = "/tmp/" +:+ name
  ∧ file_path_of name = "/tmp/" +:+ name
  ∧ Path.dirname ("/tmp/" +:+ name) = "/tmp".
Proof.
  intros H. unfold file_path_of, basename. split; [|split].
  - change ("/" +:+ name) with (String "/" name).
    by rewrite (after_last_append "/"%char dir name "").
  - by rewrite after_last_free.
  - unfold Path.dirname.
    rewrite rev_append. change (String.rev "/tmp/") with ("/pmt/").
    rewrite head_rev_skip by by rewrite free_of_rev.
    reflexivity.
Qed.

Lemma file_path_of_last_component_witness :
  file_path_of ("src/app" +:+ "/" +:+ "main.tf") = "/tmp/" +:+ "main.tf"
  ∧ file_path_of ("infra" +:+ "/" +:+ "main.tf") = "/tmp/" +:+ "main.tf".
Proof.
  split.
  - apply (file_path_of_last_component "src/app" "main.tf"). reflexivity.
  - apply (file_path_of_last_component "infra" "main.tf"). reflexivity.
Defined.

(** ** More on the router *)

Lemma recognized_exclusive e1 e2 :
  e1 ∈ recognized_extensions → e2 ∈ recognized_extensions → e1 ≠ e2 →
  Str.endswith e1 e2 = false ∧ Str.endswith e2 e1 = false.
Proof.
  assert (forallb (fun a => forallb (fun b =>
            bool_decide (a = b)
            || (negb (Str.endswith a b) && negb (Str.endswith b a)))
            recognized_extensions) recognized_extensions = true) as H
    by (vm_compute; reflexivity).
  intros H1%list_elem_of_In H2%list_elem_of_In Hne.
  rewrite forallb_forall in H. specialize (H e1 H1).
  rewrite forallb_forall in H. specialize (H e2 H2).
  apply orb_prop in H as [H|H].
  - by apply bool_decide_eq_true in H.
  - apply andb_prop in H as [Ha Hb]. by rewrite !negb_true_iff in Ha, Hb.
Qed.

(** X5. A file name ends with at most one of the recognized extensions, so
    at most one test of the chain of [review_pr] holds for a file and the
    order of its branches does not matter. *)
Theorem recognized_extension_unique (e1 e2 filename : string) :
  e1 ∈ recognized_extensions → e2 ∈ recognized_extensions →
  Str.endswith e1 filename = true → Str.endswith e2 filename = true →
  e1 = e2.
Proof.
  intros H1 H2 Hs1 Hs2. destruct (decide (e1 = e2)) as [|Hne]; [done|].
  destruct (recognized_exclusive e1 e2 H1 H2 Hne) as [Ha Hb].
  by rewrite (endswith_exclusive e1 e2 filename Ha Hb Hs1) in Hs2.
Qed.

Lemma recognized_extension_unique_witness : ".tsx" = ".tsx".
Proof.
  apply (recognized_extension_unique ".tsx" ".tsx" "src/App.tsx").
  - unfold recognized_extensions. set_solver.
  - unfold recognized_extensions. set_solver.
  - reflexivity.
  - reflexivity.
Defined.

Lemma endswith_other ext e filename :
  ext ∈ recognized_extensions → e ∈ recognized_extensions → ext ≠ e →
  Str.endswith ext filename = true → Str.endswith e filename = false.
Proof.
  intros H1 H2 Hne Hs.
  destruct (recognized_exclusive ext e H1 H2 Hne) as [Ha Hb].
  by apply (endswith_exclusive ext e filename).
Qed.

(** With [H : Str.endswith ext filename = true], gives every test of the
    chain its value. *)
Ltac other_extensions H :=
  repeat match goal with
  | |- context [Str.endswith ?e ?f] =>
      lazymatch type of H with
      | Str.endswith ?ext f = true =>
          first [ rewrite H
                | rewrite (endswith_exclusive ext e f eq_refl eq_refl H) ]
      end
  end.

Section RouterFacts.

Variable ast_parse : string → string → result module.
Variable readlines : string → result (list string).
Variable re_search : string → string → result bool.
Variable run : list string → option string → result completed.
Variable json_loads : string → result json.
Variable not_iterable : json → string.
Variable bad_subscript : json → string → string.

Abbreviation route' :=
  (route ast_parse readlines re_search run json_loads not_iterable bad_subscript).

Lemma route_none filename added_code file_path :
  existsb (fun ext => Str.endswith ext filename) recognized_extensions = false →
  route' filename added_code file_path = [].
Proof.
  intros H. unfold recognized_extensions in H. cbn [existsb] in H.
  repeat (apply orb_false_elim in H as [? H]).
  unfold route, Str.endswith_any. cbn [existsb].
  repeat match goal with E : Str.endswith _ filename = false |- _ =>
    rewrite E; clear E end.
  reflexivity.
Qed.

Lemma route_py filename added_code file_path :
  Str.endswith ".py" filename = true →
  route' filename added_code file_path
  = entry_of filename <$> analyze_python_code_ast ast_parse added_code filename.
Proof. intros H. unfold route. by rewrite H. Qed.

Lemma route_ts ext filename added_code file_path :
  ext ∈ [".ts"; ".tsx"; ".js"; ".jsx"] → Str.endswith ext filename = true →
  route' filename added_code file_path
  = entry_of_json filename
      <$> analyze_ts_code run json_loads not_iterable bad_subscript file_path.
Proof.
  intros Hext H. unfold route, Str.endswith_any. cbn [existsb].
  repeat (apply elem_of_cons in Hext as [->|Hext]);
    [..|by apply elem_of_nil in Hext]; other_extensions H; reflexivity.
Qed.

Lemma route_text ext filename added_code file_path :
  ext ∈ [".cpp"; ".hpp"; ".java"; ".rs"; ".html"; ".css"] →
  Str.endswith ext filename = true →
  route' filename added_code file_path
  = entry_of filename
      <$> analyze_text_file_lines readlines re_search file_path
            (checks_for filename).
Proof.
  intros Hext H. unfold route, Str.endswith_any. cbn [existsb].
  repeat (apply elem_of_cons in Hext as [->|Hext]);
    [..|by apply elem_of_nil in Hext]; other_extensions H; reflexivity.
Qed.

Lemma route_tf filename added_code file_path :
  Str.endswith ".tf" filename = true →
  route' filename added_code file_path
  = entry_of filename <$> analyze_terraform run file_path.
Proof.
  intros H. unfold route, Str.endswith_any. cbn [existsb].
  other_extensions H. reflexivity.
Qed.

Lemma route_go filename added_code file_path :
  Str.endswith ".go" filename = true →
  route' filename added_code file_path
  = entry_of filename <$> analyze_go_code run file_path.
Proof.
  intros H. unfold route, Str.endswith_any. cbn [existsb].
  other_extensions H. reflexivity.
Qed.

Lemma route_rb filename added_code file_path :
  Str.endswith ".rb" filename = true →
  route' filename added_code file_path
  = entry_of filename <$> analyze_ruby_code run file_path.
Proof.
  intros H. unfold route, Str.endswith_any. cbn [existsb].
  other_extensions H. reflexivity.
Qed.

End RouterFacts.

(** X6. The chain of [review_pr] gives a file to exactly one analyzer,
    chosen by the extension its name ends with: the structural analyzer on
    the added code for [.py]; the TypeScript analyzer for [.ts], [.tsx],
    [.js], [.jsx]; the heuristic analyzer with the checks of the name for
    [.cpp], [.hpp], [.java], [.rs], [.html], [.css]; the analyzers of
    Terraform, Go and Ruby for [.tf], [.go], [.rb], all on the temporary
    file.  The entries are the findings of that analyzer, each with the name
    of the file. *)
Theorem route_dispatch
    (ast_parse : string → string → result module)
    (readlines : string → result (list string))
    (re_search : string → string → result bool)
    (run : list string → option string → result completed)
    (json_loads : string → result json)
    (not_iterable : json → string) (bad_subscript : json → string → string)
    (ext filename added_code file_path : string) :
  Str.endswith ext filename = true →
  route ast_parse readlines re_search run json_loads not_iterable bad_subscript
        filename added_code file_path
  = if decide (ext = ".py") then
      entry_of filename <$> analyze_python_code_ast ast_parse added_code filename
    else if decide (ext ∈ [".ts"; ".tsx"; ".js"; ".jsx"]) then
      entry_of_json filename
        <$> analyze_ts_code run json_loads not_iterable bad_subscript file_path
    else if decide (ext ∈ [".cpp"; ".hpp"; ".java"; ".rs"; ".html"; ".css"]) then
      entry_of filename
        <$> analyze_text_file_lines readlines re_search file_path
              (checks_for filename)
    else if decide (ext = ".tf") then
      entry_of filename <$> analyze_terraform run file_path
    else if decide (ext = ".go") then
      entry_of filename <$> analyze_go_code run file_path
    else if decide (ext = ".rb") then
      entry_of filename <$> analyze_ruby_code run file_path
    else
      route ast_parse readlines re_search run json_loads not_iterable
            bad_subscript filename added_code file_path.
Proof.
  intros H. repeat case_decide; subst.
  - by apply route_py.
  - by eapply route_ts.
  - by eapply route_text.
  - by apply route_tf.
  - by apply route_go.
  - by apply route_rb.
  - reflexivity.
Qed.

Lemma route_dispatch_witness :
  route (fun _ _ => Raise "") (fun _ => Raise "") (fun _ _ => Ok true)
        (fun _ _ => Raise "no go") (fun _ => Raise "") (fun _ => "")
        (fun _ _ => "") "cmd/main.go" "package main" "/tmp/main.go"
  = [("cmd/main.go", JInt 0, JStr "no go", JStr "⚠️ Go parsing failed")].
Proof.
  refine (eq_trans
            (route_dispatch (fun _ _ => Raise "") (fun _ => Raise "")
               (fun _ _ => Ok true) (fun _ _ => Raise "no go") (fun _ => Raise "")
               (fun _ => "") (fun _ _ => "") ".go" "cmd/main.go" "package main"
               "/tmp/main.go" eq_refl) _).
  vm_compute. reflexivity.
Defined.

Lemma checks_for_hpp filename :
  Str.endswith ".hpp" filename = true → checks_for filename = [].
Proof. intros H. unfold checks_for. other_extensions H. reflexivity. Qed.

Lemma for_each_nothing {F A} (xs : list A) (body : A → attempt F unit) :
  (∀ x, body x = ([], Ok tt)) → for_each xs body = ([], Ok tt).
Proof.
  intros H. rewrite (for_each_appends (fun _ => []) body xs H).
  f_equal. induction xs; simpl; auto.
Qed.

(** X7. The extension [.hpp] is given to the heuristic analyzer, but no
    check is defined for it: a C++ header that can be read never gives a
    finding, whatever it holds, and one that cannot be read gives the single
    entry of the reading error. *)
Theorem route_hpp_no_check
    (ast_parse : string → string → result module)
    (readlines : string → result (list string))
    (re_search : string → string → result bool)
    (run : list string → option string → result completed)
    (json_loads : string → result json)
    (not_iterable : json → string) (bad_subscript : json → string → string)
    (filename added_code file_path : string) :
  Str.endswith ".hpp" filename = true →
  route ast_parse readlines re_search run json_loads not_iterable bad_subscript
        filename added_code file_path
  = match readlines file_path with
    | Ok _ => []
    | Raise e => [(filename, JInt 0, JStr e, JStr "⚠️ File reading error")]
    end.
Proof.
  intros H.
  rewrite (route_text ast_parse readlines re_search run json_loads not_iterable
             bad_subscript ".hpp" filename added_code file_path
             ltac:(set_solver) H).
  rewrite (checks_for_hpp filename H). unfold analyze_text_file_lines, call.
  destruct (readlines file_path) as [lines|e]; [|reflexivity].
  unfold mbind at 1, attempt_bind at 1.
  rewrite for_each_nothing; [reflexivity|]. by intros [i line].
Qed.

Lemma route_hpp_no_check_witness :
  route (fun _ _ => Raise "") (fun _ => Ok ["printf(42);"]) (fun _ _ => Ok true)
        (fun _ _ => Raise "") (fun _ => Raise "") (fun _ => "") (fun _ _ => "")
        "include/a.hpp" "printf(42);" "/tmp/a.hpp"
  = [].
Proof.
  apply (route_hpp_no_check (fun _ _ => Raise "") (fun _ => Ok ["printf(42);"])
           (fun _ _ => Ok true) (fun _ _ => Raise "") (fun _ => Raise "")
           (fun _ => "") (fun _ _ => "") "include/a.hpp" "printf(42);"
           "/tmp/a.hpp").
  reflexivity.
Defined.

Lemma recognized_dot ext :
  ext ∈ recognized_extensions →
  ∃ e, ext = String "." e ∧ free_of "." e = true.
Proof.
  unfold recognized_extensions. intros H.
  repeat (apply elem_of_cons in H as [->|H]; [by eexists|]).
  by apply elem_of_nil in H.
Qed.

(** X8. A file for which the chain adds an entry has a name that ends with
    a recognized extension, and the label of the fence the report gives to
    its code, [file.split('.')[-1]], is that extension without its dot. *)
Theorem fence_label_is_extension
    (ast_parse : string → string → result module)
    (readlines : string → result (list string))
    (re_search : string → string → result bool)
    (run : list string → option string → result completed)
    (json_loads : string → result json)
    (not_iterable : json → string) (bad_subscript : json → string → string)
    (filename added_code file_path : string) :
  route ast_parse readlines re_search run json_loads not_iterable bad_subscript
        filename added_code file_path ≠ [] →
  ∃ ext, ext ∈ recognized_extensions ∧ Str.endswith ext filename = true
         ∧ fence_label filename = Str.drop1 ext.
Proof.
  intros Hne.
  destruct (existsb (fun ext => Str.endswith ext filename) recognized_extensions)
    eqn:E; [|by rewrite route_none in Hne].
  apply existsb_exists in E as (ext & Hin%list_elem_of_In & Hs).
  exists ext. split; [done|]. split; [done|].
  destruct (recognized_dot ext Hin) as (e & -> & He).
  apply endswith_spec in Hs as [r ->].
  unfold fence_label. by rewrite after_last_append.
Qed.

Lemma fence_label_is_extension_witness :
  ∃ ext, ext ∈ recognized_extensions ∧ Str.endswith ext "cmd/main.go" = true
         ∧ fence_label "cmd/main.go" = Str.drop1 ext.
Proof.
  apply (fence_label_is_extension (fun _ _ => Raise "") (fun _ => Raise "")
           (fun _ _ => Ok true) (fun _ _ => Raise "no go") (fun _ => Raise "")
           (fun _ => "") (fun _ _ => "") "cmd/main.go" "package main"
           "/tmp/main.go").
  vm_compute. discriminate.
Defined.

(** ** More on the structural analyzer *)

#[local] Instance debug_callee_dec c : Decision (debug_callee c).
Proof. unfold debug_callee. apply _. Defined.










Lemma free_of_sep c a b : free_of c (a +:+ String c b) = false.
Proof.
  rewrite free_of_append. cbn [free_of]. rewrite Ascii.eqb_refl.
  by rewrite andb_false_r.
Qed.

Lemma append_cancel_r (a b t : string) : a +:+ t = b +:+ t → a = b.
Proof.
  intros H. apply (f_equal String.rev) in H. rewrite !rev_append in H.
  apply (inj (String.app (String.rev t))) in H.
  by rewrite <- (rev_involutive a), H, rev_involutive.
Qed.

(** A string is cut at its last [c] in one way only. *)
Lemma last_sep_unique c a b x y :
  free_of c x = true → free_of c y = true →
  a +:+ String c x = b +:+ String c y → a = b ∧ x = y.
Proof.
  intros Hx Hy H.
  assert (x = y) as ->.
  { rewrite <- (after_last_append c a x "" Hx), H. by apply after_last_append. }
  split; [|done]. by eapply append_cancel_r.
Qed.

Lemma get_full_name_plain v :
  plain_names v → free_of "." (get_full_name v) = true →
  get_full_name v ≠ "" → v = Name (get_full_name v).
Proof.
  destruct v as [id|value attr| | |]; cbn [get_full_name]; try done.
  intros _ H _. change ("." +:+ attr) with (String "." attr) in H.
  by rewrite free_of_sep in H.
Qed.

(** X10. When the identifiers of the callee have no dot, as the identifiers
    of Python, a call is reported as a debug call exactly when its callee is
    the name [print], the attribute [set_trace] of the name [pdb], or the
    attribute [debug] of the name [logging]: a call through an alias, a
    longer chain such as [builtins.print], or an attribute of another
    expression is not reported. *)
Theorem debug_callee_shapes (lineno : Z) (func : expr) :
  plain_names func →
  debug_callee (lineno, func)
  ↔ func = Name "print" ∨ func = Attribute (Name "pdb") "set_trace"
    ∨ func = Attribute (Name "logging") "debug".
Proof.
  intros Hplain. unfold debug_callee. cbn [snd]. split.
  - intros Hin.
    destruct func as [id|value attr| | |]; cbn [get_full_name plain_names] in *.
    + repeat (apply elem_of_cons in Hin as [->|Hin]); try done; [by left|].
      by apply elem_of_nil in Hin.
    + destruct Hplain as [Hv Hattr].
      change ("." +:+ attr) with (String "." attr) in Hin.
      repeat (apply elem_of_cons in Hin as [Hin|Hin]).
      * apply (f_equal (free_of ".")) in Hin. by rewrite free_of_sep in Hin.
      * change "pdb.set_trace" with ("pdb" +:+ String "." "set_trace") in Hin.
        apply last_sep_unique in Hin as [Hn ->]; [|done..].
        right; left. f_equal.
        rewrite (get_full_name_plain value Hv); by rewrite Hn.
      * change "logging.debug" with ("logging" +:+ String "." "debug") in Hin.
        apply last_sep_unique in Hin as [Hn ->]; [|done..].
        right; right. f_equal.
        rewrite (get_full_name_plain value Hv); by rewrite Hn.
      * by apply elem_of_nil in Hin.
    + set_solver.
    + set_solver.
    + set_solver.
  - intros [-> | [-> | ->]]; cbn [get_full_name]; set_solver.
Qed.

Lemma debug_callee_shapes_witness :
  ¬ debug_callee (1, Attribute (Name "builtins") "print")
  ∧ debug_callee (1, Attribute (Name "pdb") "set_trace").
Proof.
  split.
  - intros H.
    apply (debug_callee_shapes 1 (Attribute (Name "builtins") "print")) in H;
      [|by split].
    by destruct H as [H|[H|H]].
  - apply (debug_callee_shapes 1 (Attribute (Name "pdb") "set_trace"));
      [by split|]. by right; left.
Defined.




(** X12. A finding [Nesting too deep] is never a false alarm: it belongs to
    a [FunctionDef] node of the tree (a function defined with [def]) whose
    nesting depth, counted through every nested body, is more than 4.  And
    when no exception ends the walk, a function defined with [def] whose
    statements nest through their [body] only (no [else], handler,
    [finally] or [match]) is reported whenever its depth is more than
    4. *)
Theorem too_deep_sound
    (ast_parse : string → string → result module)
    (recursion_error : option (nat * string)) source_code filename tree :
  ast_parse source_code filename = Ok tree →
  (∀ f, f ∈ analyze_python_code_ast_limited ast_parse recursion_error
              source_code filename →
        reason f = TOO_DEEP →
        ∃ d, d ∈ function_defs tree ∧ f = too_deep_finding d
             ∧ 4 < claimed_depth (fd_body d))
  ∧ ((walk recursion_error tree).2 = Ok tt →
     ∀ d, d ∈ function_defs tree → forallb body_only (fd_body d) = true →
          4 < claimed_depth (fd_body d) →
          too_deep_finding d
          ∈ analyze_python_code_ast_limited ast_parse recursion_error
              source_code filename).
Proof.
  intros H. destruct (too_deep_findings _ recursion_error _ _ _ H) as [Hp Hc].
  split.
  - intros f Hin Hr.
    assert (f ∈ filter (fun f => reason f = TOO_DEEP)
                  (analyze_python_code_ast_limited ast_parse recursion_error
                     source_code filename)) as Hin'
      by by apply list_elem_of_filter.
    apply (prefix_of_elem _ _ _ Hp) in Hin'.
    apply list_elem_of_fmap in Hin' as (d & -> & Hd).
    apply list_elem_of_filter in Hd as [Hdeep Hd]. exists d.
    split; [done|]. split; [done|].
    destruct (nesting_depth_claimed (fd_body d)) as [Hle _]. lia.
  - intros Hw d Hd Hbody Hdeep.
    assert (too_deep_finding d
            ∈ filter (fun f => reason f = TOO_DEEP)
                (analyze_python_code_ast_limited ast_parse recursion_error
                   source_code filename)) as Hin.
    { rewrite (Hc Hw). apply list_elem_of_fmap. exists d. split; [done|].
      apply list_elem_of_filter. split; [|done].
      destruct (nesting_depth_claimed (fd_body d)) as [_ Heq].
      rewrite (Heq Hbody). done. }
    by apply list_elem_of_filter in Hin as [_ Hin].
Qed.

Lemma too_deep_sound_witness :
  (1, "g", TOO_DEEP)
  ∈ analyze_python_code_ast_limited (fun _ _ => Ok tree_nested_if) None
      "def g(): ..." "a.py".
Proof.
  apply (proj2 (too_deep_sound (fun _ _ => Ok tree_nested_if) None "def g(): ..."
                  "a.py" tree_nested_if eq_refl) eq_refl
           (FunDef 1 "g" body_nested_if)).
  - apply list_elem_of_here.
  - reflexivity.
  - reflexivity.
Defined.

(** X20. The visitor has no method for [AsyncFunctionDef]: the function of
    an [async def] is never tested, only the [def] functions inside it are.
    So for a source without any [def], whatever the length and the nesting
    of its [async def] functions, no finding says that a function is too
    long or nested too deep; an [async def] of 51 statements gives no
    finding. *)
Theorem async_def_not_checked
    (ast_parse : string → string → result module)
    (recursion_error : option (nat * string)) source_code filename tree :
  ast_parse source_code filename = Ok tree →
  function_defs tree = [] →
  (∀ f, f ∈ analyze_python_code_ast_limited ast_parse recursion_error
              source_code filename →
        reason f ≠ TOO_LONG ∧ reason f ≠ TOO_DEEP)
  ∧ analyze_python_code_ast (fun _ _ => Ok tree_async_def) source_code filename
    = [].
Proof.
  intros H Hdefs. split; [|reflexivity]. intros f Hin.
  destruct (selected_findings ast_parse recursion_error
              (fun f => reason f = TOO_LONG) source_code filename tree H)
    as [Hlong _]; [done|].
  destruct (selected_findings ast_parse recursion_error
              (fun f => reason f = TOO_DEEP) source_code filename tree H)
    as [Hdeep _]; [done|].
  rewrite too_long_visit, Hdefs in Hlong. rewrite too_deep_visit, Hdefs in Hdeep.
  split; intros Hr.
  - assert (f ∈ filter (fun f => reason f = TOO_LONG)
                  (analyze_python_code_ast_limited ast_parse recursion_error
                     source_code filename)) as Hf
      by by apply list_elem_of_filter.
    apply (prefix_of_elem _ _ _ Hlong) in Hf. by apply elem_of_nil in Hf.
  - assert (f ∈ filter (fun f => reason f = TOO_DEEP)
                  (analyze_python_code_ast_limited ast_parse recursion_error
                     source_code filename)) as Hf
      by by apply list_elem_of_filter.
    apply (prefix_of_elem _ _ _ Hdeep) in Hf. by apply elem_of_nil in Hf.
Qed.

Lemma async_def_not_checked_witness :
  analyze_python_code_ast_limited (fun _ _ => Ok tree_async_def) None
    "async def f(): ..." "a.py" = []
  ∧ ∀ f, f ∈ analyze_python_code_ast_limited (fun _ _ => Ok tree_async_def) None
               "async def f(): ..." "a.py" →
         reason f ≠ TOO_LONG ∧ reason f ≠ TOO_DEEP.
Proof.
  split; [reflexivity|].
  apply (proj1 (async_def_not_checked (fun _ _ => Ok tree_async_def) None
                  "async def f(): ..." "a.py" tree_async_def eq_refl eq_refl)).
Defined.




(** ** More on the heuristic analyzer *)

(** X14. The findings of a file that can be read, when [re.search] raises
    on none of its lines for the patterns of the checks, are numbered from 1
    by the position of the line: a finding is in the result exactly when it
    is [(n + 1, line.strip(), message)] for the line at index [n] of the
    file and a check of the list whose pattern matches that line; so the
    line number of a finding is then never 0 and never past the end of the
    file. *)
Theorem text_findings_numbered
    (readlines : string → result (list string))
    (re_search : string → string → result bool) file_path checks lines :
  readlines file_path = Ok lines →
  (∀ line c, line ∈ lines → c ∈ checks →
     ∃ found, re_search (pattern c) line = Ok found) →
  (∀ f, f ∈ analyze_text_file_lines readlines re_search file_path checks
        ↔ ∃ (n : nat) line c,
            lines !! n = Some line ∧ c ∈ checks
            ∧ re_search (pattern c) line = Ok true
            ∧ f = (Z.of_nat n + 1, Str.strip line, message c))
  ∧ (∀ f, f ∈ analyze_text_file_lines readlines re_search file_path checks →
          1 ≤ f.1.1 ≤ Z.of_nat (length lines)).
Proof.
  intros H Hsearch.
  assert (∀ f, f ∈ analyze_text_file_lines readlines re_search file_path checks
               ↔ ∃ (n : nat) line c,
                   lines !! n = Some line ∧ c ∈ checks
                   ∧ re_search (pattern c) line = Ok true
                   ∧ f = (Z.of_nat n + 1, Str.strip line, message c)) as Hiff.
  { intros f. rewrite (text_findings_readable _ _ _ _ _ H Hsearch).
    unfold matching_pairs. rewrite list_elem_of_fmap. split.
    - intros ([[i line] c] & -> & Hp).
      apply list_elem_of_filter in Hp as [Hm Hp]. cbn [fst snd] in Hm.
      apply list_elem_of_In, in_prod_iff in Hp as [Hl Hc].
      apply list_elem_of_In, elem_of_enumerate in Hl as (n & Hn & ->).
      apply list_elem_of_In in Hc. exists n, line, c.
      repeat split; try done. unfold pair_finding. cbn [fst snd]. do 2 f_equal. lia.
    - intros (n & line & c & Hn & Hc & Hm & ->).
      exists (Z.of_nat n + 1, line, c). split; [done|].
      apply list_elem_of_filter. split; [done|].
      apply list_elem_of_In, in_prod_iff. split; apply list_elem_of_In; [|done].
      apply elem_of_enumerate. exists n. split; [done|lia]. }
  split; [exact Hiff|].
  intros f (n & line & c & Hn & _ & _ & ->)%Hiff. cbn [fst].
  apply lookup_lt_Some in Hn. lia.
Qed.

Lemma text_findings_numbered_witness :
  (2, "ok", "fine")
  ∈ analyze_text_file_lines (fun _ => Ok ["  dbg!(1);"; "ok"])
      (fun p line => Ok (Str.contains p line))
      "/tmp/a.rs" [MkCheck "dbg!" "debug"; MkCheck "ok" "fine"].
Proof.
  assert (∀ line c, line ∈ ["  dbg!(1);"; "ok"]
                    → c ∈ [MkCheck "dbg!" "debug"; MkCheck "ok" "fine"]
                    → ∃ found, Ok (Str.contains (pattern c) line) = Ok found)
    as Hsearch by (intros line c _ _; eexists; reflexivity).
  apply (proj1 (text_findings_numbered (fun _ => Ok ["  dbg!(1);"; "ok"])
                  (fun p line => Ok (Str.contains p line))
                  "/tmp/a.rs" [MkCheck "dbg!" "debug"; MkCheck "ok" "fine"]
                  ["  dbg!(1);"; "ok"] eq_refl Hsearch)).
  exists 1%nat, "ok", (MkCheck "ok" "fine").
  repeat split; try reflexivity.
  apply list_elem_of_further, list_elem_of_here.
Defined.

Lemma for_each_stops {F A} (g : A → list F) (body : A → attempt F unit)
    good bad rest fs e :
  (∀ x, x ∈ good → body x = (g x, Ok tt)) → body bad = (fs, Raise e) →
  for_each (good ++ bad :: rest) body = (flat_map g good ++ fs, Raise e).
Proof.
  intros Hgood Hbad. induction good as [|x good IH].
  - cbn [app for_each flat_map]. unfold mbind, attempt_bind. by rewrite Hbad.
  - cbn [app for_each flat_map]. unfold mbind, attempt_bind.
    rewrite (Hgood x) by apply list_elem_of_here.
    rewrite IH; [by rewrite app_assoc|].
    intros y Hy. by apply Hgood, list_elem_of_further.
Qed.

Lemma enumerate_app {A} (xs ys : list A) : ∀ start,
  enumerate start (xs ++ ys)
  = enumerate start xs ++ enumerate (start + Z.of_nat (length xs)) ys.
Proof.
  induction xs as [|x xs IH]; intros start; cbn [app enumerate length].
  - f_equal. lia.
  - rewrite IH. do 3 f_equal. lia.
Qed.

(** X19. An exception of [re.search] (a pattern the engine rejects) ends
    the scan of a file that was read: the result holds the findings of the
    lines before, those of the checks tried before on the line the search
    raised at, and then one finding of line 0 with the error, labelled as a
    file reading error.  The checks and the lines after that point are not
    tried. *)
Theorem text_search_error
    (readlines : string → result (list string))
    (re_search : string → string → result bool)
    file_path before line after earlier c later e :
  readlines file_path = Ok (before ++ line :: after) →
  (∀ l c', l ∈ before → c' ∈ earlier ++ c :: later →
     ∃ found, re_search (pattern c') l = Ok found) →
  (∀ c', c' ∈ earlier → ∃ found, re_search (pattern c') line = Ok found) →
  re_search (pattern c) line = Raise e →
  analyze_text_file_lines readlines re_search file_path (earlier ++ c :: later)
  = (pair_finding <$> matching_pairs re_search before (earlier ++ c :: later))
    ++ (pair_finding
          <$> filter (fun p => re_search (pattern p.2) p.1.2 = Ok true)
                     ((fun c' => (Z.of_nat (length before) + 1, line, c'))
                        <$> earlier))
    ++ [(0, e, "⚠️ File reading error")].
Proof.
  intros Hread Hbefore Hearlier Hraise.
  unfold analyze_text_file_lines, matching_pairs, call. rewrite Hread.
  unfold mbind at 1, attempt_bind at 1.
  rewrite enumerate_app. cbn [enumerate].
  rewrite (for_each_stops
             (fun x : Z * string =>
                flat_map (hit re_search x) (earlier ++ c :: later))
             _ _ _ _
             (flat_map (hit re_search (1 + Z.of_nat (length before), line))
                       earlier) e).
  - cbn [app try_except]. rewrite matching_lines, <- !app_assoc. do 2 f_equal.
    replace (1 + Z.of_nat (length before)) with (Z.of_nat (length before) + 1)
      by lia.
    by rewrite (matching_checks re_search (Z.of_nat (length before) + 1, line)).
  - intros [i l] Hin. apply for_each_appends_in. intros c' Hc'.
    apply elem_of_enumerate in Hin as (n & Hn & _).
    destruct (Hbefore l c') as [found E]; [by eapply list_elem_of_lookup_2|done|].
    by apply search_returns with found.
  - rewrite <- (app_nil_r (flat_map _ earlier)). apply for_each_stops.
    + intros c' Hc'. destruct (Hearlier c' Hc') as [found E].
      by apply search_returns with found.
    + unfold call, mbind, attempt_bind. by rewrite Hraise.
Qed.

Lemma text_search_error_witness :
  analyze_text_file_lines (fun _ => Ok ["ok"; "x"])
    (fun p l => if decide (p = "(")
                then Raise "missing ), unterminated subpattern at position 0"
                else Ok (Str.contains p l))
    "/tmp/a.rs" [MkCheck "ok" "fine"; MkCheck "(" "unbalanced"]
  = [(1, "ok", "fine");
     (0, "missing ), unterminated subpattern at position 0",
      "⚠️ File reading error")].
Proof.
  refine (eq_trans
            (text_search_error (fun _ => Ok ["ok"; "x"])
               (fun p l => if decide (p = "(")
                           then Raise "missing ), unterminated subpattern at position 0"
                           else Ok (Str.contains p l))
               "/tmp/a.rs" [] "ok" ["x"] [MkCheck "ok" "fine"]
               (MkCheck "(" "unbalanced") []
               "missing ), unterminated subpattern at position 0"
               eq_refl _ _ eq_refl) _).
  - intros l c' Hl. by apply elem_of_nil in Hl.
  - intros c' ->%list_elem_of_singleton. eexists. reflexivity.
  - vm_compute. reflexivity.
Defined.

(** ** More on the external tools *)

Lemma flat_map_singleton {A B} (f : A → B) (l : list A) :
  flat_map (fun x => [f x]) l = f <$> l.
Proof. induction l as [|x l IH]; simpl; [done|]. by rewrite IH. Qed.

Lemma flat_map_if_singleton {A B} (P : A → Prop) `{!∀ x, Decision (P x)}
    (b : A → bool) (f : A → B) (l : list A) :
  (∀ x, b x = true ↔ P x) →
  flat_map (fun x => if b x then [f x] else []) l = f <$> filter P l.
Proof.
  intros Hb. induction l as [|x l IH]; [done|]. cbn [flat_map]. rewrite IH.
  destruct (b x) eqn:E.
  - rewrite filter_cons_True by by apply Hb. done.
  - rewrite filter_cons_False; [done|]. rewrite <- Hb. congruence.
Qed.

Lemma for_each_ok {F A} (body : A → attempt F unit) xs fs :
  Forall2 (fun x f => body x = ([f], Ok tt)) xs fs →
  for_each xs body = (fs, Ok tt).
Proof.
  induction 1 as [|x f xs fs Hx _ IH]; [done|].
  cbn [for_each]. unfold mbind, attempt_bind. by rewrite Hx, IH.
Qed.

Lemma for_each_raise {F A} (body : A → attempt F unit) good fs bad rest e :
  Forall2 (fun x f => body x = ([f], Ok tt)) good fs →
  body bad = ([], Raise e) →
  for_each (good ++ bad :: rest) body = (fs, Raise e).
Proof.
  intros Hgood Hbad. induction Hgood as [|x f xs fs Hx _ IH].
  - cbn [app for_each]. unfold mbind, attempt_bind. by rewrite Hbad.
  - cbn [app for_each]. unfold mbind, attempt_bind. by rewrite Hx, IH.
Qed.

Lemma bind_call_ok {F A B} (a : A) (k : A → attempt F B) :
  call (Ok a) ≫= k = k a.
Proof. unfold call, mbind, attempt_bind. by destruct (k a). Qed.

Lemma bind_ret {F B} (k : unit → attempt F B) : mret tt ≫= k = k tt.
Proof. unfold mret, attempt_ret, mbind, attempt_bind. by destruct (k tt). Qed.

Lemma bind_append {F B} (f : F) (k : unit → attempt F B) :
  append f ≫= k = let '(fs, r) := k tt in (f :: fs, r).
Proof. unfold append, mbind, attempt_bind. by destruct (k tt). Qed.

Section ExternalSuccess.

Variable run : list string → option string → result completed.
Variable json_loads : string → result json.
Variable not_iterable : json → string.
Variable bad_subscript : json → string → string.

Lemma go_findings file_path result :
  run ["go"; "vet"; file_path] None = Ok result →
  analyze_go_code run file_path
  = (fun line => (0, Str.strip line, "🧪 go vet warning"))
      <$> Str.splitlines (stderr result).
Proof.
  intros H. unfold analyze_go_code, call. rewrite H.
  unfold mbind at 1, attempt_bind at 1. case_decide as He.
  - by rewrite He.
  - rewrite (for_each_appends
               (fun line => [(0, Str.strip line, "🧪 go vet warning")]));
      [|done].
    cbn [try_except app]. apply flat_map_singleton.
Qed.

Lemma terraform_findings file_path fmt_result validate_result :
  run ["terraform"; "fmt"; "-check"; file_path] None = Ok fmt_result →
  run ["terraform"; "validate"] (Some (Path.dirname file_path))
  = Ok validate_result →
  analyze_terraform run file_path
  = (if decide (returncode fmt_result ≠ 0)
     then [(0, "Terraform fmt check failed", "🧹 Format mismatch")] else [])
    ++ (if decide (returncode validate_result ≠ 0)
        then [(0, Str.strip (stderr validate_result),
               "🛠️ Terraform syntax error")] else []).
Proof.
  intros H1 H2. unfold analyze_terraform, call. rewrite H1.
  unfold mbind at 1, attempt_bind at 1.
  case_decide; unfold append, mret, attempt_ret, mbind, attempt_bind;
    rewrite H2; by case_decide.
Qed.

Lemma ruby_syntax_only file_path syntax which :
  run ["ruby"; "-c"; file_path] None = Ok syntax →
  run ["which"; "rubocop"] None = Ok which → returncode which ≠ 0 →
  analyze_ruby_code run file_path
  = if Str.contains "Syntax OK" (stdout syntax) then []
    else [(0, Str.strip (stdout syntax), "🛠️ Ruby syntax error")].
Proof.
  intros H1 H2 Hrc. unfold analyze_ruby_code, call. rewrite H1.
  unfold mbind at 1, attempt_bind at 1.
  destruct (Str.contains "Syntax OK" (stdout syntax));
    unfold append, mret, attempt_ret, mbind, attempt_bind;
    rewrite H2; by rewrite decide_False.
Qed.

Lemma ruby_rubocop file_path syntax which rubo :
  run ["ruby"; "-c"; file_path] None = Ok syntax →
  run ["which"; "rubocop"] None = Ok which → returncode which = 0 →
  run ["rubocop"; "--format"; "simple"; file_path] None = Ok rubo →
  analyze_ruby_code run file_path
  = (if Str.contains "Syntax OK" (stdout syntax) then []
     else [(0, Str.strip (stdout syntax), "🛠️ Ruby syntax error")])
    ++ rubocop_findings (stdout rubo).
Proof.
  intros H1 H2 Hrc H3. unfold analyze_ruby_code. rewrite H1, bind_call_ok.
  assert (for_each (Str.splitlines (stdout rubo))
            (fun line =>
               if Str.contains ":" line && Str.contains "Offense" line
               then append (0, Str.strip line, "🧹 RuboCop warning")
               else mret tt)
          = (rubocop_findings (stdout rubo), Ok tt)) as Hloop.
  { rewrite (for_each_appends
               (fun line => if Str.contains ":" line && Str.contains "Offense" line
                            then [(0, Str.strip line, "🧹 RuboCop warning")]
                            else [])).
    - f_equal. apply flat_map_if_singleton. intros line.
      by rewrite andb_true_iff.
    - intros line. by destruct (_ && _). }
  destruct (Str.contains "Syntax OK" (stdout syntax));
    rewrite ?bind_ret, ?bind_append, H2, bind_call_ok, decide_True by done;
    rewrite H3, bind_call_ok, Hloop; reflexivity.
Qed.

Lemma ts_item_body item :
  (line ← call (getitem bad_subscript item "line");
   content ← call (getitem bad_subscript item "content");
   reason ← call (getitem bad_subscript item "reason");
   append (line, content, reason))
  = match item_finding bad_subscript item with
    | Ok f => ([f], Ok tt)
    | Raise e => ([], Raise e)
    end.
Proof.
  unfold item_finding, call, mbind, attempt_bind, append.
  destruct (getitem bad_subscript item "line"); [|done].
  destruct (getitem bad_subscript item "content"); [|done].
  by destruct (getitem bad_subscript item "reason").
Qed.

Lemma ts_no_output file_path result :
  run ["node"; "analyze_ts_ast.js"; file_path] None = Ok result →
  stdout result = "" →
  analyze_ts_code run json_loads not_iterable bad_subscript file_path = [].
Proof.
  intros H He. unfold analyze_ts_code, call. rewrite H.
  unfold mbind at 1, attempt_bind at 1. by rewrite decide_True.
Qed.

Lemma ts_bad_json file_path result e :
  run ["node"; "analyze_ts_ast.js"; file_path] None = Ok result →
  stdout result ≠ "" → json_loads (stdout result) = Raise e →
  analyze_ts_code run json_loads not_iterable bad_subscript file_path
  = [(JInt 0, JStr e, JStr "⚠️ TypeScript parsing failed")].
Proof.
  intros H He Hj. unfold analyze_ts_code, call. rewrite H.
  unfold mbind at 1, attempt_bind at 1. rewrite decide_False by done.
  unfold mbind, attempt_bind. by rewrite Hj.
Qed.

Lemma ts_items file_path result results items :
  run ["node"; "analyze_ts_ast.js"; file_path] None = Ok result →
  stdout result ≠ "" → json_loads (stdout result) = Ok results →
  iterate not_iterable results = Ok items →
  analyze_ts_code run json_loads not_iterable bad_subscript file_path
  = try_except
      (for_each items (fun item =>
         match item_finding bad_subscript item with
         | Ok f => ([f], Ok tt)
         | Raise e => ([], Raise e)
         end))
      (fun e => (JInt 0, JStr e, JStr "⚠️ TypeScript parsing failed")).
Proof.
  intros H He Hj Hi. unfold analyze_ts_code.
  rewrite H, bind_call_ok, decide_False by done.
  rewrite Hj, bind_call_ok, Hi, bind_call_ok.
  assert (∀ (body1 body2 : json → attempt json_finding unit) xs,
            (∀ x, body1 x = body2 x) → for_each xs body1 = for_each xs body2)
    as Hext.
  { intros b1 b2 xs Hb. induction xs as [|x xs IH]; [done|].
    cbn [for_each]. by rewrite Hb, IH. }
  f_equal. apply Hext. intros item. apply ts_item_body.
Qed.

End ExternalSuccess.

(** X15. When [go vet] could be run, the findings of [analyze_go_code] are
    one for each line of its standard error, in order, with line 0 and the
    line trimmed; the exit status and the standard output of the tool play
    no part, and an empty standard error gives no finding. *)
Theorem go_vet_findings
    (run : list string → option string → result completed) file_path result :
  run ["go"; "vet"; file_path] None = Ok result →
  analyze_go_code run file_path
  = (fun line => (0, Str.strip line, "🧪 go vet warning"))
      <$> Str.splitlines (stderr result)
  ∧ length (analyze_go_code run file_path)
    = length (Str.splitlines (stderr result))
  ∧ (stderr result = "" → analyze_go_code run file_path = []).
Proof.
  intros H. rewrite (go_findings run file_path result H).
  split; [done|]. split; [by rewrite length_fmap|]. by intros ->.
Qed.

Lemma go_vet_findings_witness :
  analyze_go_code
    (fun _ _ => Ok (Completed 1 "ignored"
                      ("a.go:3: unreachable code" +:+ Str.LF
                       +:+ "  a.go:9: unused result  " +:+ Str.LF)))
    "/tmp/a.go"
  = [(0, "a.go:3: unreachable code", "🧪 go vet warning");
     (0, "a.go:9: unused result", "🧪 go vet warning")].
Proof.
  refine (eq_trans
            (proj1 (go_vet_findings
                      (fun _ _ => Ok (Completed 1 "ignored"
                         ("a.go:3: unreachable code" +:+ Str.LF
                          +:+ "  a.go:9: unused result  " +:+ Str.LF)))
                      "/tmp/a.go" _ eq_refl)) _).
  vm_compute. reflexivity.
Defined.

(** X16. When both runs of [terraform] could be made, [analyze_terraform]
    gives the finding of the format check when [terraform fmt -check] ended
    with a status other than 0, then the finding of [terraform validate],
    with its trimmed standard error, when that one ended with a status other
    than 0: the validation is run whatever the format check gave, there are
    at most two findings, and none exactly when both statuses are 0. *)
Theorem terraform_both_runs
    (run : list string → option string → result completed)
    file_path fmt_result validate_result :
  run ["terraform"; "fmt"; "-check"; file_path] None = Ok fmt_result →
  run ["terraform"; "validate"] (Some (Path.dirname file_path))
  = Ok validate_result →
  analyze_terraform run file_path
  = (if decide (returncode fmt_result ≠ 0)
     then [(0, "Terraform fmt check failed", "🧹 Format mismatch")] else [])
    ++ (if decide (returncode validate_result ≠ 0)
        then [(0, Str.strip (stderr validate_result),
               "🛠️ Terraform syntax error")] else [])
  ∧ (length (analyze_terraform run file_path) ≤ 2)%nat
  ∧ (analyze_terraform run file_path = []
     ↔ returncode fmt_result = 0 ∧ returncode validate_result = 0).
Proof.
  intros H1 H2. rewrite (terraform_findings run file_path _ _ H1 H2).
  split; [done|].
  repeat case_decide; cbn [app length]; split; try lia;
    split; try done; intros [? ?]; congruence.
Qed.

Lemma terraform_both_runs_witness :
  analyze_terraform
    (fun argv _ => if decide (argv = ["terraform"; "validate"])
                   then Ok (Completed 1 "" " Error: Missing provider ")
                   else Ok (Completed 3 "" ""))
    "/tmp/main.tf"
  = [(0, "Terraform fmt check failed", "🧹 Format mismatch");
     (0, "Error: Missing provider", "🛠️ Terraform syntax error")].
Proof.
  refine (eq_trans
            (proj1 (terraform_both_runs
                      (fun argv _ => if decide (argv = ["terraform"; "validate"])
                                     then Ok (Completed 1 "" " Error: Missing provider ")
                                     else Ok (Completed 3 "" ""))
                      "/tmp/main.tf" _ _ eq_refl eq_refl)) _).
  vm_compute. reflexivity.
Defined.

(** X17. When [ruby -c] and [which rubocop] could be run,
    [analyze_ruby_code] first gives the finding of a syntax error unless the
    standard output of [ruby -c] contains [Syntax OK].  When [which] ended
    with a status other than 0 that is all: [rubocop] is never run.  When it
    ended with 0 and [rubocop] could be run, one finding follows for each
    line of its output that contains a colon and the word [Offense]. *)
Theorem ruby_findings
    (run : list string → option string → result completed)
    file_path syntax which :
  run ["ruby"; "-c"; file_path] None = Ok syntax →
  run ["which"; "rubocop"] None = Ok which →
  (returncode which ≠ 0 →
   analyze_ruby_code run file_path
   = if Str.contains "Syntax OK" (stdout syntax) then []
     else [(0, Str.strip (stdout syntax), "🛠️ Ruby syntax error")])
  ∧ (returncode which = 0 →
     ∀ rubo, run ["rubocop"; "--format"; "simple"; file_path] None = Ok rubo →
     analyze_ruby_code run file_path
     = (if Str.contains "Syntax OK" (stdout syntax) then []
        else [(0, Str.strip (stdout syntax), "🛠️ Ruby syntax error")])
       ++ rubocop_findings (stdout rubo)).
Proof.
  intros H1 H2. split.
  - intros Hrc. by eapply ruby_syntax_only.
  - intros Hrc rubo H3. by eapply ruby_rubocop.
Qed.

Lemma ruby_findings_witness :
  analyze_ruby_code
    (fun argv _ =>
       if decide (argv = ["which"; "rubocop"]) then Ok (Completed 1 "" "")
       else if decide (argv = ["ruby"; "-c"; "/tmp/a.rb"])
            then Ok (Completed 1 " a.rb:1: syntax error " "")
            else Raise "rubocop must not be run")
    "/tmp/a.rb"
  = [(0, "a.rb:1: syntax error", "🛠️ Ruby syntax error")].
Proof.
  refine (eq_trans
            (proj1 (ruby_findings
                      (fun argv _ =>
                         if decide (argv = ["which"; "rubocop"])
                         then Ok (Completed 1 "" "")
                         else if decide (argv = ["ruby"; "-c"; "/tmp/a.rb"])
                              then Ok (Completed 1 " a.rb:1: syntax error " "")
                              else Raise "rubocop must not be run")
                      "/tmp/a.rb" _ _ eq_refl eq_refl) _) _).
  - discriminate.
  - vm_compute. reflexivity.
Defined.

(** X18. When the TypeScript helper could be run: an empty standard output
    gives no finding; an output that is not JSON, or a document that cannot
    be iterated over, gives the single diagnostic finding with the error; a
    document whose items all have the keys [line], [content] and [reason]
    gives one finding for each item, in order; and at the first item for
    which a key is missing the findings of the items before it are kept, one
    diagnostic finding is added, whose text is the missing key in quotes,
    and the items after it are not looked at. *)
Theorem ts_output_findings
    (run : list string → option string → result completed)
    (json_loads : string → result json)
    (not_iterable : json → string) (bad_subscript : json → string → string)
    file_path result :
  run ["node"; "analyze_ts_ast.js"; file_path] None = Ok result →
  let analyze :=
    analyze_ts_code run json_loads not_iterable bad_subscript file_path in
  let diagnostic e := (JInt 0, JStr e, JStr "⚠️ TypeScript parsing failed") in
  (stdout result = "" → analyze = [])
  ∧ (stdout result ≠ "" →
     (∀ e, json_loads (stdout result) = Raise e → analyze = [diagnostic e])
     ∧ (∀ results e, json_loads (stdout result) = Ok results →
          iterate not_iterable results = Raise e → analyze = [diagnostic e])
     ∧ (∀ results items, json_loads (stdout result) = Ok results →
          iterate not_iterable results = Ok items →
          (∀ fs, Forall2 (fun item f => item_finding bad_subscript item = Ok f)
                         items fs →
                 analyze = fs)
          ∧ (∀ good fs bad rest e,
               items = good ++ bad :: rest →
               Forall2 (fun item f => item_finding bad_subscript item = Ok f)
                       good fs →
               item_finding bad_subscript bad = Raise e →
               analyze = fs ++ [diagnostic e])))
  ∧ (∀ members key, key ∈ ["line"; "content"; "reason"] →
       Json.member key members = None →
       (∀ k, k ∈ ["line"; "content"; "reason"] → k ≠ key →
             is_Some (Json.member k members)) →
       item_finding bad_subscript (JDict members) = Raise ("'" +:+ key +:+ "'")).
Proof.
  intros H analyze diagnostic. split; [intros He; by eapply ts_no_output|]. split.
  - intros He. split; [intros e Hj; by eapply ts_bad_json|]. split.
    + intros results e Hj Hi. unfold analyze, analyze_ts_code.
      rewrite H, bind_call_ok, decide_False by done.
      rewrite Hj, bind_call_ok, Hi. reflexivity.
    + intros results items Hj Hi.
      unfold analyze. rewrite (ts_items _ _ _ _ _ _ _ _ H He Hj Hi). split.
      * intros fs Hfs. rewrite (for_each_ok _ items fs); [done|].
        eapply Forall2_impl; [exact Hfs|]. by intros item f ->.
      * intros good fs bad rest e -> Hfs Hbad.
        rewrite (for_each_raise _ good fs bad rest e); [done| |by rewrite Hbad].
        eapply Forall2_impl; [exact Hfs|]. by intros item f ->.
  - intros members key Hkey Hnone Hothers. unfold item_finding, getitem.
    repeat (apply elem_of_cons in Hkey as [->|Hkey]).
    + by rewrite Hnone.
    + destruct (Hothers "line") as [v ->]; [set_solver|done|]. by rewrite Hnone.
    + destruct (Hothers "line") as [v ->]; [set_solver|done|].
      destruct (Hothers "content") as [w ->]; [set_solver|done|]. by rewrite Hnone.
    + by apply elem_of_nil in Hkey.
Qed.

Lemma ts_output_findings_witness :
  analyze_ts_code
    (fun _ _ => Ok (Completed 0 "[...]" ""))
    (fun _ => Ok (JList [JDict [("line", JInt 4); ("content", JStr "debugger;");
                                ("reason", JStr "debugger statement")];
                         JDict [("line", JInt 9)];
                         JDict [("line", JInt 11); ("content", JStr "x");
                                ("reason", JStr "y")]]))
    (fun _ => "") (fun _ _ => "") "/tmp/a.ts"
  = [(JInt 4, JStr "debugger;", JStr "debugger statement");
     (JInt 0, JStr "'content'", JStr "⚠️ TypeScript parsing failed")].
Proof.
  destruct (ts_output_findings
              (fun _ _ => Ok (Completed 0 "[...]" ""))
              (fun _ => Ok (JList [JDict [("line", JInt 4);
                                          ("content", JStr "debugger;");
                                          ("reason", JStr "debugger statement")];
                                   JDict [("line", JInt 9)];
                                   JDict [("line", JInt 11); ("content", JStr "x");
                                          ("reason", JStr "y")]]))
              (fun _ => "") (fun _ _ => "") "/tmp/a.ts" _ eq_refl)
    as (_ & H & _).
  destruct (H ltac:(discriminate)) as (_ & _ & Hitems).
  destruct (Hitems _ _ eq_refl eq_refl) as [_ Hbad].
  apply (Hbad [JDict [("line", JInt 4); ("content", JStr "debugger;");
                      ("reason", JStr "debugger statement")]]
              [(JInt 4, JStr "debugger;", JStr "debugger statement")]
              (JDict [("line", JInt 9)])
              [JDict [("line", JInt 11); ("content", JStr "x"); ("reason", JStr "y")]]
              "'content'").
  - reflexivity.
  - repeat constructor.
  - reflexivity.
Defined.
